(** * hotel: validated dates, room records and the room registry

    A shallow embedding of the Go packages [date], [room] and [hotel].

    Conventions of the embedding.
    - Go's [uint] is modelled by [N].  The code never adds, subtracts or
      multiplies [uint] values; the only conversion, [uint(x)] applied to a
      [uint64], is written out as [to_uint] for a 64-bit platform.
    - Go strings are byte strings: [string].
    - [map[Attribute]struct{}] is a finite set [gset string], and
      [map[Number]*Room] a finite map [gmap N Room].  No room is mutated
      while it sits in a registry, so rooms are stored by value.
    - A function with results [(T, error)] returns a pair
      [option T * option E]: [None] on the left is the [nil] pointer, [None]
      on the right the [nil] error.
    - A call either returns, panics, or blocks for ever on a mutex:
      [outcome]. *)

From Stdlib Require Import NArith String Ascii DecimalString DecimalN.
From stdpp Require Import base option list gmap strings fin_maps fin_sets.

Local Open Scope string_scope.
Local Open Scope N_scope.

(** ** Outcomes of a call *)

Inductive Panic : Type :=
| NilDereference        (* invalid memory address or nil pointer dereference *)
| IndexOutOfRange       (* index out of range *)
| UnlockOfUnlocked.     (* fatal error: sync: Unlock of unlocked RWMutex *)

Inductive outcome (A : Type) : Type :=
| Returns (a : A)
| Panics (p : Panic)
| Blocks.

Arguments Returns {A} a.
Arguments Panics {A} p.
Arguments Blocks {A}.

#[global] Instance outcome_ret : MRet outcome := fun _ a => Returns a.

#[global] Instance outcome_bind : MBind outcome := fun _ _ k m =>
  match m with
  | Returns a => k a
  | Panics p => Panics p
  | Blocks => Blocks
  end.

(** [uint(x)] for a [uint64] value [x], on a platform with 64-bit [uint]. *)
Definition uint_size : N := 64.
Definition to_uint (x : N) : N := x mod 2 ^ uint_size.

(** ** Library functions used by the packages *)

(** [sync.RWMutex], as seen by one thread of control: the write lock is
    held or not, and a number of read locks are outstanding. *)
Module Sync.

Record RWMutex : Type := mkRWMutex { writer : bool; readers : nat }.

(** [&sync.RWMutex{}] *)
Definition new : RWMutex := mkRWMutex false 0.

Definition Lock (m : RWMutex) : outcome RWMutex :=
  if writer m || negb (Nat.eqb (readers m) 0) then Blocks
  else Returns (mkRWMutex true (readers m)).

Definition Unlock (m : RWMutex) : outcome RWMutex :=
  if writer m then Returns (mkRWMutex false (readers m))
  else Panics UnlockOfUnlocked.

Definition RLock (m : RWMutex) : outcome RWMutex :=
  if writer m then Blocks
  else Returns (mkRWMutex false (S (readers m))).

(** [RLocker] returns a [Locker] whose [Lock] and [Unlock] call [RLock] and
    [RUnlock]; calling [RLocker] itself leaves the mutex as it is. *)
Definition RLocker (m : RWMutex) : RWMutex := m.

(** The mutex is free: no writer and no outstanding read lock. *)
Definition unlocked (m : RWMutex) : Prop :=
  writer m = false /\ readers m = 0%nat.

End Sync.

(** [strconv.ParseUint(s, 10, 64)] *)
Module Strconv.

Inductive NumError : Type :=
| ErrSyntax     (* invalid syntax *)
| ErrRange.     (* value out of range *)

Definition is_digit (c : ascii) : bool :=
  (48 <=? N_of_ascii c) && (N_of_ascii c <=? 57).

Definition digit_val (c : ascii) : N := N_of_ascii c - 48.

(** The digit loop: a byte that is not a decimal digit is a syntax error;
    a value that no longer fits 64 bits is a range error, reported at the
    digit where it happens. *)
Fixpoint parse_digits (s : string) (n : N) : NumError + N :=
  match s with
  | EmptyString => inr n
  | String c s' =>
      if is_digit c then
        let n1 := 10 * n + digit_val c in
        if 2 ^ 64 <=? n1 then inl ErrRange else parse_digits s' n1
      else inl ErrSyntax
  end.

Definition ParseUint (s : string) : NumError + N :=
  match s with
  | EmptyString => inl ErrSyntax
  | _ => parse_digits s 0
  end.

End Strconv.

(** [strings.Split(s, sep)] for a non-empty separator [sep] (the packages
    call it with [","] and with [" \t"] only). *)
Module Strings.

(** [skip] counts the bytes of a separator occurrence still to be passed
    over; [cur] is the piece read since the last separator. *)
Fixpoint split_from (sep : string) (skip : nat) (cur s : string) : list string :=
  match s with
  | EmptyString => [cur]
  | String c s' =>
      match skip with
      | S k => split_from sep k cur s'
      | O =>
          if String.prefix sep s
          then cur :: split_from sep (String.length sep - 1) EmptyString s'
          else split_from sep 0 (cur ++ String c EmptyString) s'
      end
  end.

Definition Split (s sep : string) : list string := split_from sep 0 EmptyString s.

End Strings.

(** ** Package date *)
Module date.

Record Date : Type := mkDate { Day : N; Month : N; Year : N }.

Definition Jan : N := 1.
Definition Feb : N := 2.
Definition Mar : N := 3.
Definition Apr : N := 4.
Definition May : N := 5.
Definition Jun : N := 6.
Definition Jul : N := 7.
Definition Aug : N := 8.
Definition Sep : N := 9.
Definition Oct : N := 10.
Definition Nov : N := 11.
Definition Dec : N := 12.

Definition InvalidMonth : string := "INVALID_MONTH".

(** The [switch] of the source lists these cases, in this order. *)
Definition MonthToStr (m : N) : string :=
  if m =? Jan then "January"
  else if m =? Feb then "February"
  else if m =? Mar then "March"
  else if m =? Apr then "April"
  else if m =? Jun then "June"
  else if m =? Jul then "July"
  else if m =? Aug then "August"
  else if m =? Sep then "September"
  else if m =? Oct then "October"
  else if m =? Nov then "November"
  else if m =? Dec then "December"
  else InvalidMonth.

(** The errors of [IsValid], one constructor per format string, carrying
    the values the message prints. *)
Inductive DateError : Type :=
| ErrDayRange (day : N)
    (* expected day (%d) to be between 0 and 31 (inclusive) *)
| ErrMonthRange (month : N)
    (* expected month (%d) to be between 0 and 12 (inclusive) *)
| ErrFebLeap (day year : N)
    (* day (%d) greater than 29 in leap year (%d) *)
| ErrFebNonLeap (day year : N)
    (* day (%d) greater than 28 in non-leap year (%d) *)
| ErrDayUpperBound (day ub : N) (month : string).
    (* expected day (%d) to be at most %d for month %s *)

(** The error of [New]: invalid date: %s *)
Inductive NewError : Type :=
| ErrInvalidDate (e : DateError).

Definition isLeapYear (y : N) : bool :=
  if y mod 400 =? 0 then true
  else if y mod 100 =? 0 then false
  else if y mod 4 =? 0 then true
  else false.

(** The statement after the [switch]: [if d.Day > ub { return ... }]. *)
Definition check_ub (d : Date) (ub : N) : option DateError :=
  if ub <? Day d
  then Some (ErrDayUpperBound (Day d) ub (MonthToStr (Month d)))
  else None.

Definition is_31_day_case (m : N) : bool :=
  (m =? Jan) || (m =? Mar) || (m =? May) || (m =? Jul) || (m =? Aug)
  || (m =? Oct) || (m =? Dec).

(** [var ub uint] is 0 until a case of the [switch] assigns it; the
    February case assigns nothing and falls out of the [switch]. *)
Definition IsValid (d : Date) : option DateError :=
  if (Day d =? 0) || (31 <? Day d) then Some (ErrDayRange (Day d))
  else if (Month d =? 0) || (12 <? Month d) then Some (ErrMonthRange (Month d))
  else
    let isLeap := isLeapYear (Year d) in
    let ub : N := 0 in
    if Month d =? Feb then
      if isLeap then
        if 29 <? Day d then Some (ErrFebLeap (Day d) (Year d))
        else check_ub d ub
      else
        if 28 <? Day d then Some (ErrFebNonLeap (Day d) (Year d))
        else check_ub d ub
    else if is_31_day_case (Month d) then check_ub d 31
    else check_ub d 30.

(** The empty [if !(1 <= month && month <= 12) { }] of the source does
    nothing. *)
Definition New (year month day : N) : option Date * option NewError :=
  let d := mkDate day month year in
  match IsValid d with
  | Some err => (None, Some (ErrInvalidDate err))
  | None => (Some d, None)
  end.

(** The calendar of the specification: the length of a month, with the
    400/100/4 leap-year rule.  Used to state properties only. *)
Definition spec_leap (y : N) : bool :=
  if y mod 400 =? 0 then true
  else if y mod 100 =? 0 then false
  else y mod 4 =? 0.

Definition spec_month_length (y m : N) : N :=
  if m =? 2 then (if spec_leap y then 29 else 28)
  else if (m =? 4) || (m =? 6) || (m =? 9) || (m =? 11) then 30
  else 31.

Definition spec_valid (y m d : N) : Prop :=
  1 <= m <= 12 /\ 1 <= d <= spec_month_length y m.

(** The month names of the calendar, for comparison with [MonthToStr]. *)
Definition spec_month_name (m : N) : string :=
  match m with
  | 1 => "January" | 2 => "February" | 3 => "March" | 4 => "April"
  | 5 => "May" | 6 => "June" | 7 => "July" | 8 => "August"
  | 9 => "September" | 10 => "October" | 11 => "November" | 12 => "December"
  | _ => InvalidMonth
  end.

(** The bound a message of [IsValid] names as exceeded by the day. *)
Definition named_day_bound (e : DateError) : option N :=
  match e with
  | ErrDayRange _ => Some 31
  | ErrMonthRange _ => None
  | ErrFebLeap _ _ => Some 29
  | ErrFebNonLeap _ _ => Some 28
  | ErrDayUpperBound _ ub _ => Some ub
  end.

(** The [%d] verb of [fmt.Sprintf] on a [uint]: the decimal digits of the
    number, ["0"] for zero. *)
Definition fmt_uint (n : N) : string := NilZero.string_of_uint (N.to_uint n).

(** The [switch d.Day % 10] of [String]. *)
Definition ordinalExt (day : N) : string :=
  if day mod 10 =? 1 then "st"
  else if day mod 10 =? 2 then "nd"
  else if day mod 10 =? 3 then "rd"
  else "th".

(** The method [String] of [Date]: [fmt.Sprintf("%d%s %s, %d", d.Day,
    ordinalExt, MonthToStr(d.Month), d.Year)]. *)
Definition Date_String (d : Date) : string :=
  (fmt_uint (Day d) ++ ordinalExt (Day d) ++ " " ++ MonthToStr (Month d)
   ++ ", " ++ fmt_uint (Year d))%string.

(** The string is made of decimal digits only. *)
Fixpoint all_digits (s : string) : bool :=
  match s with
  | EmptyString => true
  | String c s' => Strconv.is_digit c && all_digits s'
  end.

(** The string begins with a byte that is not a decimal digit. *)
Definition starts_without_digit (s : string) : bool :=
  match s with
  | EmptyString => false
  | String c _ => negb (Strconv.is_digit c)
  end.

End date.

(** ** Package room

    Package hotel declares the same types and functions a second time
    ([RoomNumber], [RoomAttribute], [RoomState], [Room], ...), with the same
    bodies; the registry uses the ones of package room. *)
Module room.

Definition Number : Type := N.
Definition Attribute : Type := string.
Definition State : Type := string.

Definition StateOccupied : State := "OCCUPIED".
Definition StateUnavailable : State := "UNAVAILABLE".
Definition StateFree : State := "FREE".

Record Room : Type := mkRoom {
  mu : Sync.RWMutex;
  id : Number;
  price : N;
  state : State;
  attrs : gset Attribute
}.

(** The fields the struct literal leaves out take their zero value: price
    0 and state the empty string. *)
Definition NewRoom (id : Number) : Room :=
  mkRoom Sync.new id 0 "" ∅.

Inductive RecordError : Type :=
| ErrRecordLen
    (* invalid record: expected %d entries *)
| ErrRecordID (entry : string) (e : Strconv.NumError)
    (* invalid record (id: '%s'): %s *)
| ErrRecordPrice (entry : string) (e : Strconv.NumError)
    (* invalid record (price: '%s'): %s *)
| ErrRecordState (entry : string).
    (* invalid record (state: '%s;): unrecognized state *)

(** The [switch] on [record[EntryState]]; [None] is its [default] case. *)
Definition state_of_entry (stateStr : string) : option State :=
  if String.eqb stateStr "OCCUPIED" then Some StateOccupied
  else if String.eqb stateStr "UNAVAILABLE" then Some StateUnavailable
  else if String.eqb stateStr "FREE" then Some StateFree
  else None.

(** The [range] loop over [strings.Split(record[EntryAttributes], ",")]. *)
Definition attrs_of_entry (entry : string) : gset Attribute :=
  foldl (fun roomAttrs attr => {[attr]} ∪ roomAttrs) ∅ (Strings.Split entry ",").

Definition NewRoomFromRecord (record : list string) (validAttributes : list Attribute)
  : option Room * option RecordError :=
  match record with
  | [eID; ePrice; eState; eAttrs] =>
      match Strconv.ParseUint eID with
      | inl err => (None, Some (ErrRecordID eID err))
      | inr id64 =>
          match Strconv.ParseUint ePrice with
          | inl err => (None, Some (ErrRecordPrice ePrice err))
          | inr price64 =>
              match state_of_entry eState with
              | None => (None, Some (ErrRecordState eState))
              | Some st =>
                  (Some (mkRoom Sync.new (to_uint id64) (to_uint price64) st
                           (attrs_of_entry eAttrs)),
                   None)
              end
          end
      end
  | _ => (None, Some ErrRecordLen)
  end.

Definition ID (r : Room) : Number := id r.

(** [r.mu.Lock(); defer r.mu.Unlock(); r.attrs[attr] = struct{}{}] *)
Definition AddAttribute (attr : Attribute) (r : Room) : outcome Room :=
  m1 ← Sync.Lock (mu r);
  let attrs' := {[attr]} ∪ attrs r in
  m2 ← Sync.Unlock m1;
  mret (mkRoom m2 (id r) (price r) (state r) attrs').

(** The loop of [Satisfies]. *)
Fixpoint satisfies_loop (have : gset Attribute) (want : list Attribute) : bool :=
  match want with
  | [] => true
  | attr :: rest =>
      if bool_decide (attr ∈ have) then satisfies_loop have rest else false
  end.

(** [r.mu.RLock(); defer r.mu.RLocker(); ...]: the deferred call is
    [RLocker], not [RUnlock], so the read lock taken here stays taken when
    the method returns. *)
Definition Satisfies (want : list Attribute) (r : Room) : outcome (bool * Room) :=
  m1 ← Sync.RLock (mu r);
  let res := satisfies_loop (attrs r) want in
  let m2 := Sync.RLocker m1 in
  mret (res, mkRoom m2 (id r) (price r) (state r) (attrs r)).

(** The operations of a room, and runs of them by one caller. *)
Inductive Op : Type :=
| OpID
| OpAddAttribute (attr : Attribute)
| OpSatisfies (want : list Attribute).

Inductive Obs : Type :=
| ObsID (n : Number)
| ObsAdded
| ObsSatisfies (b : bool).

Definition step (op : Op) (r : Room) : outcome (Obs * Room) :=
  match op with
  | OpID => mret (ObsID (ID r), r)
  | OpAddAttribute attr => r' ← AddAttribute attr r; mret (ObsAdded, r')
  | OpSatisfies want => '(b, r') ← Satisfies want r; mret (ObsSatisfies b, r')
  end.

(** What a caller observes of a run, and how the run ends. *)
Fixpoint run (ops : list Op) (r : Room) : list Obs * outcome Room :=
  match ops with
  | [] => ([], Returns r)
  | op :: ops' =>
      match step op r with
      | Returns (o, r') => let '(os, fin) := run ops' r' in (o :: os, fin)
      | Panics p => ([], Panics p)
      | Blocks => ([], Blocks)
      end
  end.

Definition valid_state (s : State) : Prop :=
  s = StateOccupied \/ s = StateUnavailable \/ s = StateFree.

(** The results of the [Satisfies] calls among the observations of a run. *)
Fixpoint satisfies_results (os : list Obs) : list bool :=
  match os with
  | [] => []
  | ObsSatisfies b :: os' => b :: satisfies_results os'
  | _ :: os' => satisfies_results os'
  end.

(** The attributes a list of operations adds, and the number of its
    [Satisfies] calls. *)
Fixpoint added_attrs (ops : list Op) : gset Attribute :=
  match ops with
  | [] => ∅
  | OpAddAttribute attr :: ops' => {[attr]} ∪ added_attrs ops'
  | _ :: ops' => added_attrs ops'
  end.

Fixpoint count_satisfies (ops : list Op) : nat :=
  match ops with
  | [] => 0
  | OpSatisfies _ :: ops' => S (count_satisfies ops')
  | _ :: ops' => count_satisfies ops'
  end.

(** The string holds no comma. *)
Fixpoint no_comma (s : string) : bool :=
  match s with
  | EmptyString => true
  | String c s' => negb (Ascii.eqb c ","%char) && no_comma s'
  end.

End room.

(** ** Package hotel *)
Module hotel.

(** *** The two data sources

    The loaders read their files through [bufio.Scanner] and
    [encoding/csv].  A file is given by what these readers deliver on it:
    the lines [scanner.Text()] takes in turn while [scanner.Scan()] holds,
    what [scanner.Err()] holds once [Scan] has returned false ([None] at the
    end of the file, the error of the failed read otherwise, such as
    [bufio.ErrTooLong] on a line beyond the scanner's buffer), and the
    results of the successive calls of [csvReader.Read()] up to [io.EOF]. *)
Inductive ReadResult : Type :=
| ReadRecord (record : list string)
| ReadError (msg : string).

Record File : Type := mkFile {
  scan_err : option string;
  scan_lines : list string;
  csv_reads : list ReadResult
}.

(** [os.Open]: [None] when the file cannot be opened. *)
Definition FileSystem : Type := string -> option File.

Inductive LoadError : Type :=
| ErrAttrsOpen (path : string)
    (* attributes load err: %s *)
| ErrRoomsOpen (path : string)
    (* rooms load err: %s *)
| ErrReadFatal (msg : string)
    (* load err [fatal]: %s *)
| ErrRoomParse (e : room.RecordError).
    (* load err: room parse err: %s *)

Record Hotel : Type := mkHotel {
  mu : Sync.RWMutex;
  numRooms : N;
  rooms : gmap room.Number room.Room;
  roomAttrs : list room.Attribute
}.

(** The separator handed to [strings.Split] by [loadAttributes]: the
    two-byte string made of a space and a tab. *)
Definition space_tab : string :=
  String " "%char (String (ascii_of_N 9) EmptyString).

(** The [for scanner.Scan()] loop.  [strings.Split(...)[0]] is an index
    expression and panics on an empty slice. *)
Fixpoint scan_loop (lines : list string) (roomAttrs : list room.Attribute)
  : outcome (list room.Attribute) :=
  match lines with
  | [] => mret roomAttrs
  | text :: rest =>
      match Strings.Split text space_tab with
      | [] => Panics IndexOutOfRange
      | attr :: _ =>
          if String.eqb attr "" || String.eqb attr "#"
          then scan_loop rest roomAttrs
          else scan_loop rest (roomAttrs ++ [attr])
      end
  end.

(** After the loop the method returns [nil]: it never calls
    [scanner.Err()], so [scan_err] is not read. *)
Definition loadAttributes (fs : FileSystem) (attrData : string) (h : Hotel)
  : outcome (Hotel * option LoadError) :=
  match fs attrData with
  | None => mret (h, Some (ErrAttrsOpen attrData))
  | Some attrFile =>
      m1 ← Sync.Lock (mu h);
      roomAttrs' ← scan_loop (scan_lines attrFile) (roomAttrs h);
      m2 ← Sync.Unlock m1;
      mret (mkHotel m2 (numRooms h) (rooms h) roomAttrs', None)
  end.

(** The [for] loop of [loadRooms] over the results of [csvReader.Read()];
    [rooms] is the local map.  When [NewRoomFromRecord] fails and [strict]
    is false, control reaches [rooms[room.ID()] = room] with [room] the
    [nil] pointer. *)
Fixpoint read_loop (reads : list ReadResult) (initialRecord : bool)
    (validAttributes : list room.Attribute) (strict : bool)
    (rooms : gmap room.Number room.Room)
  : outcome (gmap room.Number room.Room * option LoadError) :=
  match reads with
  | [] => mret (rooms, None)
  | ReadError msg :: _ => mret (rooms, Some (ErrReadFatal msg))
  | ReadRecord record :: rest =>
      if initialRecord then read_loop rest false validAttributes strict rooms
      else
        let '(r, err) := room.NewRoomFromRecord record validAttributes in
        match err, strict with
        | Some e, true => mret (rooms, Some (ErrRoomParse e))
        | _, _ =>
            match r with
            | None => Panics NilDereference
            | Some r =>
                read_loop rest false validAttributes strict (<[room.ID r := r]> rooms)
            end
        end
  end.

(** [for k, v := range rooms { h.rooms[k] = v }] *)
Definition merge_rooms (parsed into : gmap room.Number room.Room)
  : gmap room.Number room.Room :=
  map_fold (fun k v acc => <[k := v]> acc) into parsed.

Definition loadRooms (fs : FileSystem) (roomData : string) (strict : bool) (h : Hotel)
  : outcome (Hotel * option LoadError) :=
  match fs roomData with
  | None => mret (h, Some (ErrRoomsOpen roomData))
  | Some f =>
      '(parsed, err) ← read_loop (csv_reads f) true (roomAttrs h) strict ∅;
      match err with
      | Some e => mret (h, Some e)
      | None =>
          m1 ← Sync.Lock (mu h);
          let rooms' := merge_rooms parsed (rooms h) in
          m2 ← Sync.Unlock m1;
          mret (mkHotel m2 (numRooms h) rooms' (roomAttrs h), None)
      end
  end.

(** The struct literal of [NewHotelFromData]. *)
Definition emptyHotel : Hotel := mkHotel Sync.new 0 ∅ [].

Definition NewHotelFromData (fs : FileSystem) (attrData roomData : string) (strict : bool)
  : outcome (option Hotel * option LoadError) :=
  '(h1, err) ← loadAttributes fs attrData emptyHotel;
  match err with
  | Some e => mret (None, Some e)
  | None =>
      '(h2, err) ← loadRooms fs roomData strict h1;
      match err with
      | Some e => mret (None, Some e)
      | None =>
          mret (Some (mkHotel (mu h2) (to_uint (N.of_nat (size (rooms h2))))
                        (rooms h2) (roomAttrs h2)),
                None)
      end
  end.

(** *** Vocabulary for the properties, and sample sources *)

(** What [strings.Split(text, " \t")[0]] evaluates to. *)
Definition first_piece (text : string) : string :=
  match Strings.Split text space_tab with
  | [] => ""
  | attr :: _ => attr
  end.

(** The lines [loadAttributes] does not skip. *)
Definition kept (attr : string) : bool :=
  negb (String.eqb attr "" || String.eqb attr "#").

(** The string holds no tab byte. *)
Fixpoint no_tab (s : string) : bool :=
  match s with
  | EmptyString => true
  | String c s' => negb (Ascii.eqb c (ascii_of_N 9)) && no_tab s'
  end.

(** A record that [NewRoomFromRecord] accepts. *)
Definition well_formed (va : list room.Attribute) (record : list string) : Prop :=
  is_Some (fst (room.NewRoomFromRecord record va)).

(** The effect of one accepted record on the local map of [loadRooms]. *)
Definition insert_record (va : list room.Attribute)
    (acc : gmap N room.Room) (record : list string) : gmap N room.Room :=
  match fst (room.NewRoomFromRecord record va) with
  | Some r => <[room.ID r := r]> acc
  | None => acc
  end.

Definition insert_records (va : list room.Attribute)
    (records : list (list string)) (acc : gmap N room.Room) : gmap N room.Room :=
  foldl (insert_record va) acc records.

(** A record of four entries whose price entry is not a number. *)
Definition bad_price (record : list string) : Prop :=
  exists eID ePrice eState eAttrs e,
    record = [eID; ePrice; eState; eAttrs] /\ Strconv.ParseUint ePrice = inl e.

(** A file system with one attribute file. *)
Definition fs_attrs_sample : FileSystem := fun path =>
  if String.eqb path "attrs.txt"
  then Some (mkFile None ["# comment"; ""; "view  ocean"] [])
  else None.

(** A file system with an attribute file and a room file holding one
    well-formed record and one record with a price that is not a number. *)
Definition fs_bad_price : FileSystem := fun path =>
  if String.eqb path "attrs.txt" then Some (mkFile None ["sea-view"; "smoking"] [])
  else if String.eqb path "rooms.csv" then
    Some (mkFile None [] [ReadRecord ["id"; "price"; "state"; "attributes"];
                     ReadRecord ["101"; "120"; "FREE"; "sea-view"];
                     ReadRecord ["102"; "abc"; "FREE"; "smoking"]])
  else None.

(** A file system whose room file ends in a failed read, and one more
    whose second record has an unknown state. *)
Definition fs_failing : FileSystem := fun path =>
  if String.eqb path "attrs.txt" then Some (mkFile None ["sea-view"] [])
  else if String.eqb path "truncated.csv" then
    Some (mkFile None [] [ReadRecord ["id"; "price"; "state"; "attributes"];
                     ReadRecord ["101"; "120"; "FREE"; "sea-view"];
                     ReadError "record on line 3: wrong number of fields"])
  else if String.eqb path "rooms.csv" then
    Some (mkFile None [] [ReadRecord ["id"; "price"; "state"; "attributes"];
                     ReadRecord ["101"; "120"; "FREE"; "sea-view"];
                     ReadRecord ["102"; "95"; "CLOSED"; ""]])
  else None.

(** A room file in which room 101 occurs twice, the second time written
    with a leading zero. *)
Definition fs_duplicates : FileSystem := fun path =>
  if String.eqb path "rooms.csv" then
    Some (mkFile None [] [ReadRecord ["id"; "price"; "state"; "attributes"];
                     ReadRecord ["101"; "120"; "FREE"; "sea-view"];
                     ReadRecord ["7"; "60"; "UNAVAILABLE"; ""];
                     ReadRecord ["0101"; "95"; "OCCUPIED"; "smoking,balcony"]])
  else None.

Definition duplicate_records : list (list string) :=
  [["101"; "120"; "FREE"; "sea-view"];
   ["7"; "60"; "UNAVAILABLE"; ""];
   ["0101"; "95"; "OCCUPIED"; "smoking,balcony"]].

(** A file system with an attribute file and a well-formed room file, and
    the registry [NewHotelFromData] builds from them. *)
Definition fs_complete : FileSystem := fun path =>
  if String.eqb path "attrs.txt" then Some (mkFile None ["sea-view"; "# comment"] [])
  else if String.eqb path "other.txt" then Some (mkFile None ["smoking"] [])
  else if String.eqb path "rooms.csv" then
    Some (mkFile None [] (ReadRecord ["id"; "price"; "state"; "attributes"]
                       :: List.map ReadRecord duplicate_records))
  else None.

Definition sample_hotel : Hotel :=
  mkHotel Sync.new 2 (insert_records [] duplicate_records ∅ ∪ ∅) ["sea-view"; "# comment"].

(** A file system whose attribute file cannot be read to its end: the
    scanner delivers one line and then fails on a line that is too long.
    Its room file is well formed. *)
Definition fs_failed_scan : FileSystem := fun path =>
  if String.eqb path "attrs.txt" then
    Some (mkFile (Some "bufio.Scanner: token too long") ["sea-view"] [])
  else if String.eqb path "rooms.csv" then
    Some (mkFile None [] [ReadRecord ["id"; "price"; "state"; "attributes"];
                          ReadRecord ["101"; "120"; "FREE"; "sea-view"]])
  else None.

(** A room file in which room 101 occurs twice and a third record has a
    price that is not a number. *)
Definition fs_duplicates_bad : FileSystem := fun path =>
  if String.eqb path "attrs.txt" then Some (mkFile None ["sea-view"] [])
  else if String.eqb path "rooms.csv" then
    Some (mkFile None [] [ReadRecord ["id"; "price"; "state"; "attributes"];
                          ReadRecord ["101"; "120"; "FREE"; "sea-view"];
                          ReadRecord ["101"; "95"; "OCCUPIED"; "smoking"];
                          ReadRecord ["102"; "abc"; "FREE"; "balcony"]])
  else None.

(** What a caller of [NewHotelFromData] gets to know about the rooms. *)
Definition loaded_rooms (o : outcome (option Hotel * option LoadError))
  : outcome (option (gmap N room.Room) * option LoadError) :=
  match o with
  | Returns (ho, oe) => Returns (rooms <$> ho, oe)
  | Panics p => Panics p
  | Blocks => Blocks
  end.

End hotel.

(** * Properties *)

(** Case analysis on the comparisons of [N] that occur in the goal. *)
Ltac case_cmp :=
  repeat (match goal with
          | |- context [N.eqb ?a ?b] => destruct (N.eqb_spec a b)
          | |- context [N.ltb ?a ?b] => destruct (N.ltb_spec a b)
          | |- context [N.leb ?a ?b] => destruct (N.leb_spec a b)
          end; cbn [orb andb negb]).

(** ** Dates *)
Module date_props.
Import date.

Ltac unfold_months :=
  unfold Jan, Feb, Mar, Apr, May, Jun, Jul, Aug, Sep, Oct, Nov, Dec in *.

Lemma month_cases (m : N) :
  1 <= m <= 12 ->
  m = 1 \/ m = 2 \/ m = 3 \/ m = 4 \/ m = 5 \/ m = 6 \/
  m = 7 \/ m = 8 \/ m = 9 \/ m = 10 \/ m = 11 \/ m = 12.
Proof. lia. Qed.

(** Away from May, [MonthToStr] is the table of month names, and the
    sentinel outside 1..12. *)
Lemma MonthToStr_except_May (m : N) :
  m <> 5 -> MonthToStr m = spec_month_name m.
Proof.
  intros Hm. destruct (decide (1 <= m <= 12)) as [Hr | Hr].
  - destruct (month_cases m Hr) as [->|[->|[->|[->|[->|[->|[->|[->|[->|[->|[->| ->]]]]]]]]]]];
      try reflexivity.
    congruence.
  - unfold MonthToStr. unfold_months. case_cmp; try lia.
    destruct m as [|p]; [reflexivity|].
    do 4 (destruct p as [p|p|]; try reflexivity; try lia).
Qed.

Lemma MonthToStr_outside (m : N) :
  ~ (1 <= m <= 12) -> MonthToStr m = InvalidMonth.
Proof.
  intros Hr. unfold MonthToStr. unfold_months. case_cmp; try lia. reflexivity.
Qed.

(** C4 (the code departs from the claim): [MonthToStr] has no case for
    May, so month 5, which lies in 1..12, is mapped to the sentinel
    ["INVALID_MONTH"] and not to its English name; month 2 gives
    ["February"] and month 13 the sentinel, as claimed. *)
Theorem MonthToStr_May_is_sentinel :
  MonthToStr 5 = "INVALID_MONTH"
  /\ MonthToStr 5 <> spec_month_name 5
  /\ MonthToStr 2 = "February"
  /\ MonthToStr 13 = "INVALID_MONTH".
Proof. repeat split; try reflexivity. discriminate. Qed.

Lemma isLeapYear_spec (y : N) : isLeapYear y = spec_leap y.
Proof. unfold isLeapYear, spec_leap. case_cmp; reflexivity. Qed.

Example leap_oracle :
  isLeapYear 2000 = true /\ isLeapYear 1900 = false /\ isLeapYear 2024 = true
  /\ isLeapYear 2023 = false /\ isLeapYear 2400 = true.
Proof. repeat split; reflexivity. Qed.

Ltac unfold_valid :=
  unfold New, IsValid, check_ub, is_31_day_case, spec_valid, spec_month_length;
  cbn [Day Month Year]; unfold_months.

(** [New] returns the date it was asked for, and only when [IsValid]
    reports no error on it. *)
Lemma New_Some_IsValid (y m d : N) (dt : Date) :
  fst (New y m d) = Some dt -> dt = mkDate d m y /\ IsValid dt = None.
Proof.
  unfold New. destruct (IsValid (mkDate d m y)) eqn:E; cbn [fst]; [discriminate|].
  intros [= <-]. split; [reflexivity | exact E].
Qed.

(** Outside February [New] accepts exactly the dates of the calendar. *)
Lemma New_ok_iff_not_February (y m d : N) :
  m <> 2 ->
  (New y m d = (Some (mkDate d m y), None) <-> spec_valid y m d)
  /\ (fst (New y m d) = None <-> ~ spec_valid y m d).
Proof.
  intros Hm. unfold_valid.
  destruct (N.eqb_spec m 2) as [?|_]; [contradiction|].
  case_cmp; cbn [fst]; split; split; intros; try lia; try discriminate; try reflexivity.
Qed.

Lemma isLeapYear_spec_length (y m : N) :
  (if m =? 2 then (if isLeapYear y then 29 else 28)
   else if (m =? 4) || (m =? 6) || (m =? 9) || (m =? 11) then 30 else 31)
  = spec_month_length y m.
Proof. unfold spec_month_length. rewrite isLeapYear_spec. reflexivity. Qed.

(** A day beyond the length of its month is refused, for every month
    including February, with a message that names a bound the day exceeds
    and that is no smaller than the month; the day is never clamped. *)
Lemma New_day_exceeds (y m d : N) :
  1 <= m <= 12 -> spec_month_length y m < d ->
  exists e b, New y m d = (None, Some (ErrInvalidDate e))
    /\ named_day_bound e = Some b /\ spec_month_length y m <= b < d.
Proof.
  intros Hm. rewrite <- isLeapYear_spec_length. unfold_valid.
  destruct (isLeapYear y); case_cmp; intros Hd; try lia;
    eexists _, _; (split; [reflexivity|]); cbn [named_day_bound];
    (split; [reflexivity|]); lia.
Qed.

(** C2 (the code departs from the claim): for February the [switch] of
    [IsValid] leaves the upper bound at 0, so every February day that the
    calendar allows, leap year or not, is refused by [New] with the message
    that the day should be at most 0; no [Date] is returned. *)
Theorem New_February_rejected (y d : N) :
  spec_valid y 2 d ->
  New y 2 d = (None, Some (ErrInvalidDate (ErrDayUpperBound d 0 "February")))
  /\ IsValid (mkDate d 2 y) <> None.
Proof.
  unfold_valid. unfold spec_leap, isLeapYear.
  case_cmp; intros [_ Hd]; try lia; split; (reflexivity || discriminate).
Qed.

Lemma New_February_rejected_witness :
  spec_valid 2024 2 29
  /\ New 2024 2 29 = (None, Some (ErrInvalidDate (ErrDayUpperBound 29 0 "February")))
  /\ spec_valid 2023 2 14
  /\ fst (New 2023 2 14) = None.
Proof.
  assert (H1 : spec_valid 2024 2 29) by (unfold spec_valid; vm_compute; intuition discriminate).
  assert (H2 : spec_valid 2023 2 14) by (unfold spec_valid; vm_compute; intuition discriminate).
  split; [exact H1|]. split; [exact (proj1 (New_February_rejected 2024 29 H1))|].
  split; [exact H2|]. rewrite (proj1 (New_February_rejected 2023 14 H2)). reflexivity.
Defined.

End date_props.

(** ** Rooms *)
Module room_props.
Import room.

Lemma room_eta (r : Room) :
  mkRoom (mu r) (id r) (price r) (state r) (attrs r) = r.
Proof. destruct r; reflexivity. Qed.

Lemma mutex_eta (m : Sync.RWMutex) :
  Sync.mkRWMutex (Sync.writer m) (Sync.readers m) = m.
Proof. destruct m; reflexivity. Qed.

(** [AddAttribute] returns exactly when the mutex is free, and then only
    the attribute set has changed. *)
Lemma AddAttribute_unlocked (a : Attribute) (r : Room) :
  Sync.unlocked (mu r) ->
  AddAttribute a r = Returns (mkRoom (mu r) (id r) (price r) (state r) ({[a]} ∪ attrs r)).
Proof.
  intros [Hw Hr]. unfold AddAttribute, Sync.Lock. rewrite Hw, Hr. cbn.
  rewrite <- Hw, <- Hr at 1. rewrite mutex_eta. reflexivity.
Qed.

Lemma AddAttribute_locked (a : Attribute) (r : Room) :
  ~ Sync.unlocked (mu r) -> AddAttribute a r = Blocks.
Proof.
  intros Hn. unfold AddAttribute, Sync.Lock.
  destruct (Sync.writer (mu r)) eqn:Hw; [reflexivity|].
  destruct (Sync.readers (mu r)) eqn:Hr; [|reflexivity].
  destruct Hn. split; assumption.
Qed.

Lemma AddAttribute_inv (a : Attribute) (r r' : Room) :
  AddAttribute a r = Returns r' ->
  Sync.unlocked (mu r)
  /\ r' = mkRoom (mu r) (id r) (price r) (state r) ({[a]} ∪ attrs r).
Proof.
  intros H. destruct (decide (Sync.writer (mu r) = false /\ Sync.readers (mu r) = 0%nat))
    as [Hu | Hn].
  - split; [exact Hu|]. rewrite (AddAttribute_unlocked a r Hu) in H. congruence.
  - rewrite (AddAttribute_locked a r Hn) in H. discriminate.
Qed.

Lemma satisfies_loop_spec (have : gset Attribute) (want : list Attribute) :
  satisfies_loop have want = true <-> forall a, a ∈ want -> a ∈ have.
Proof.
  induction want as [|x want IH]; cbn.
  - split; [intros _ a Ha; inversion Ha | reflexivity].
  - case_bool_decide as Hx.
    + rewrite IH. split.
      * intros H a Ha. apply elem_of_cons in Ha as [-> | Ha]; auto.
      * intros H a Ha. apply H. apply elem_of_cons. auto.
    + split; [discriminate|]. intros H. destruct Hx. apply H, elem_of_cons. auto.
Qed.

(** [Satisfies] returns whenever no writer holds the mutex; it leaves one
    more read lock behind. *)
Lemma Satisfies_no_writer (want : list Attribute) (r : Room) :
  Sync.writer (mu r) = false ->
  Satisfies want r =
    Returns (satisfies_loop (attrs r) want,
             mkRoom (Sync.mkRWMutex false (S (Sync.readers (mu r))))
               (id r) (price r) (state r) (attrs r)).
Proof. intros Hw. unfold Satisfies, Sync.RLock. rewrite Hw. reflexivity. Qed.

Lemma Satisfies_inv (want : list Attribute) (r r' : Room) (b : bool) :
  Satisfies want r = Returns (b, r') ->
  b = satisfies_loop (attrs r) want
  /\ id r' = id r /\ price r' = price r /\ state r' = state r /\ attrs r' = attrs r.
Proof.
  unfold Satisfies, Sync.RLock. destruct (Sync.writer (mu r)); cbn; [discriminate|].
  intros [= <- <-]. repeat split.
Qed.



(** Between calls no writer holds the mutex of a room: the constructors
    make a free mutex and every operation that returns has released the
    write lock. *)
Lemma step_no_writer (op : Op) (r r' : Room) (o : Obs) :
  Sync.writer (mu r) = false -> step op r = Returns (o, r') ->
  Sync.writer (mu r') = false.
Proof.
  intros Hw. destruct op as [|a|want]; cbn.
  - intros [= _ <-]. exact Hw.
  - destruct (AddAttribute a r) as [r1| |] eqn:E; cbn; try discriminate.
    intros [= _ <-]. apply AddAttribute_inv in E as [_ ->]. exact Hw.
  - rewrite (Satisfies_no_writer want r Hw). cbn. intros [= _ <-]. reflexivity.
Qed.

Lemma run_no_writer (ops : list Op) (r r' : Room) (os : list Obs) :
  Sync.writer (mu r) = false -> run ops r = (os, Returns r') ->
  Sync.writer (mu r') = false.
Proof.
  revert r os. induction ops as [|op ops IH]; intros r os Hw; cbn.
  - intros [= _ <-]. exact Hw.
  - destruct (step op r) as [[o r1]| |] eqn:E; try discriminate.
    destruct (run ops r1) as [os1 fin] eqn:E1. intros [= _ ->].
    exact (IH r1 os1 (step_no_writer op r r1 o Hw E) E1).
Qed.

(** After a [Satisfies] the read lock is still held, so that the next
    [AddAttribute] on the room never returns. *)
Lemma AddAttribute_after_Satisfies (want : list Attribute) (a : Attribute)
    (r r' : Room) (b : bool) :
  Satisfies want r = Returns (b, r') -> AddAttribute a r' = Blocks.
Proof.
  unfold Satisfies, Sync.RLock. destruct (Sync.writer (mu r)); cbn; [discriminate|].
  intros [= _ <-]. reflexivity.
Qed.

(** *** Numbers *)

Lemma parse_digits_bound (s : string) (n m : N) :
  n < 2 ^ 64 -> Strconv.parse_digits s n = inr m -> m < 2 ^ 64.
Proof.
  revert n. induction s as [|c s IH]; intros n Hn; cbn [Strconv.parse_digits].
  - intros [= <-]. exact Hn.
  - destruct (Strconv.is_digit c); [|discriminate].
    destruct (N.leb_spec (2 ^ 64) (10 * n + Strconv.digit_val c)) as [_|Hlt];
      [discriminate|].
    apply IH. exact Hlt.
Qed.

(** A parsed number fits [uint]: the conversion keeps it. *)
Lemma ParseUint_to_uint (s : string) (n : N) :
  Strconv.ParseUint s = inr n -> to_uint n = n.
Proof.
  intros H. unfold to_uint, uint_size. apply N.mod_small.
  destruct s as [|c s]; [discriminate|].
  apply (parse_digits_bound (String c s) 0 n); [reflexivity | exact H].
Qed.

(** *** Records *)

Lemma state_of_entry_Some (s : string) (st : State) :
  state_of_entry s = Some st -> st = s /\ valid_state st.
Proof.
  unfold state_of_entry, valid_state.
  destruct (String.eqb_spec s "OCCUPIED") as [-> | _]; [intros [= <-]; auto|].
  destruct (String.eqb_spec s "UNAVAILABLE") as [-> | _]; [intros [= <-]; auto|].
  destruct (String.eqb_spec s "FREE") as [-> | _]; [intros [= <-]; auto|].
  discriminate.
Qed.

(** A record is accepted exactly when it has four entries, the first two
    are decimal numbers of at most 64 bits and the third is one of the three
    state names; the room is then built from the entries alone. *)
Lemma NewRoomFromRecord_Some (record : list string) (va : list Attribute) (r : Room) :
  fst (NewRoomFromRecord record va) = Some r ->
  exists eID ePrice eState eAttrs id64 price64 st,
    record = [eID; ePrice; eState; eAttrs]
    /\ Strconv.ParseUint eID = inr id64
    /\ Strconv.ParseUint ePrice = inr price64
    /\ state_of_entry eState = Some st
    /\ r = mkRoom Sync.new (to_uint id64) (to_uint price64) st (attrs_of_entry eAttrs)
    /\ NewRoomFromRecord record va = (Some r, None).
Proof.
  destruct record as [|eID [|ePrice [|eState [|eAttrs [|x l]]]]]; cbn; try discriminate.
  destruct (Strconv.ParseUint eID) as [e|id64] eqn:E1; [discriminate|].
  destruct (Strconv.ParseUint ePrice) as [e|price64] eqn:E2; [discriminate|].
  destruct (state_of_entry eState) as [st|] eqn:E3; [|discriminate].
  cbn. intros [= <-]. eexists _, _, _, _, _, _, _. repeat split; eassumption.
Qed.

(** The two results of [NewRoomFromRecord] are never both [nil] and never
    both set. *)
Lemma NewRoomFromRecord_shape (record : list string) (va : list Attribute) :
  (exists r, NewRoomFromRecord record va = (Some r, None))
  \/ (exists e, NewRoomFromRecord record va = (None, Some e)).
Proof.
  destruct record as [|eID [|ePrice [|eState [|eAttrs [|x l]]]]]; cbn; eauto.
  destruct (Strconv.ParseUint eID); eauto.
  destruct (Strconv.ParseUint ePrice); eauto.
  destruct (state_of_entry eState); eauto.
Qed.

Lemma elem_of_foldl_union (a : Attribute) (l : list Attribute) (acc : gset Attribute) :
  a ∈ foldl (fun roomAttrs attr => {[attr]} ∪ roomAttrs) acc l <-> a ∈ acc \/ a ∈ l.
Proof.
  revert acc. induction l as [|x l IH]; intros acc; cbn.
  - split; [auto | intros [H | H]; [exact H | inversion H]].
  - rewrite IH, elem_of_union, elem_of_singleton, elem_of_cons. tauto.
Qed.

Lemma elem_of_attrs_of_entry (a : Attribute) (entry : string) :
  a ∈ attrs_of_entry entry <-> a ∈ Strings.Split entry ",".
Proof.
  unfold attrs_of_entry. rewrite elem_of_foldl_union, elem_of_empty. tauto.
Qed.

(** C9: the vocabulary handed to [NewRoomFromRecord] has no influence on
    its result, room or error; whether a record is accepted does not depend
    on its attribute entry either, and an accepted record yields a room
    whose attribute set is made of the comma-separated pieces of that entry,
    whatever the vocabulary holds. *)
Theorem NewRoomFromRecord_ignores_vocabulary
    (record : list string) (v1 v2 : list Attribute) :
  NewRoomFromRecord record v1 = NewRoomFromRecord record v2
  /\ (forall eID ePrice eState eAttrs eAttrs',
        is_Some (fst (NewRoomFromRecord [eID; ePrice; eState; eAttrs] v1))
        <-> is_Some (fst (NewRoomFromRecord [eID; ePrice; eState; eAttrs'] v2)))
  /\ (forall r, fst (NewRoomFromRecord record v1) = Some r ->
        exists eAttrs, record !! 3%nat = Some eAttrs
          /\ forall a, a ∈ attrs r <-> a ∈ Strings.Split eAttrs ",").
Proof.
  split; [reflexivity|]. split.
  - intros eID ePrice eState eAttrs eAttrs'. cbn.
    destruct (Strconv.ParseUint eID); [reflexivity|].
    destruct (Strconv.ParseUint ePrice); [reflexivity|].
    destruct (state_of_entry eState); cbn; [|reflexivity].
    split; intros _; eexists; reflexivity.
  - intros r Hr.
    destruct (NewRoomFromRecord_Some _ _ _ Hr)
      as (eID & ePrice & eState & eAttrs & id64 & price64 & st & -> & _ & _ & _ & -> & _).
    exists eAttrs. split; [reflexivity|]. intros a. apply elem_of_attrs_of_entry.
Qed.

Lemma NewRoomFromRecord_ignores_vocabulary_witness :
  exists eAttrs, ["7"; "120"; "FREE"; "sea-view,, smoking"] !! 3%nat = Some eAttrs
    /\ forall a,
         a ∈ attrs (mkRoom Sync.new 7 120 "FREE" (attrs_of_entry "sea-view,, smoking"))
         <-> a ∈ Strings.Split eAttrs ",".
Proof.
  exact (proj2 (proj2 (NewRoomFromRecord_ignores_vocabulary
                         ["7"; "120"; "FREE"; "sea-view,, smoking"] ["balcony"] []))
           _ eq_refl).
Defined.

(** *** Runs of operations *)

Lemma step_preserves (op : Op) (r r' : Room) (o : Obs) :
  step op r = Returns (o, r') ->
  id r' = id r /\ price r' = price r /\ state r' = state r.
Proof.
  destruct op as [|a|want]; cbn.
  - intros [= _ <-]. auto.
  - destruct (AddAttribute a r) as [r1| |] eqn:E; cbn; try discriminate.
    intros [= _ <-]. apply AddAttribute_inv in E as [_ ->]. auto.
  - destruct (Satisfies want r) as [[b r1]| |] eqn:E; cbn; try discriminate.
    intros [= _ <-]. apply Satisfies_inv in E. tauto.
Qed.

Lemma run_preserves (ops : list Op) (r r' : Room) (os : list Obs) :
  run ops r = (os, Returns r') ->
  id r' = id r /\ price r' = price r /\ state r' = state r.
Proof.
  revert r os. induction ops as [|op ops IH]; intros r os; cbn.
  - intros [= _ <-]. auto.
  - destruct (step op r) as [[o r1]| |] eqn:E; try discriminate.
    destruct (run ops r1) as [os1 fin] eqn:E1. intros [= _ ->].
    apply IH in E1 as (-> & -> & ->). eapply step_preserves, E.
Qed.

(** C5, against the claim as it stands: the room made by [NewRoom] has
    the zero value of [State], the empty string, which is none of the three
    state names. *)
Lemma NewRoom_state_not_in_enum : ~ valid_state (state (NewRoom 101)).
Proof. unfold valid_state. cbn. intros [H | [H | H]]; discriminate. Qed.

(** C5 (amended): a room built by a successful [NewRoomFromRecord] has one
    of the three states OCCUPIED, UNAVAILABLE, FREE, and no operation of a
    room changes the state, so this holds after any run of operations; a
    room built by [NewRoom] has the empty string as state, and keeps it. *)
Theorem state_in_enum_from_record :
  (forall record va r,
      NewRoomFromRecord record va = (Some r, None) ->
      valid_state (state r)
      /\ (forall ops os r', run ops r = (os, Returns r') -> valid_state (state r')))
  /\ (forall n,
        state (NewRoom n) = ""
        /\ (forall ops os r', run ops (NewRoom n) = (os, Returns r') -> state r' = "")).
Proof.
  split.
  - intros record va r H.
    assert (Hv : valid_state (state r)).
    { destruct (NewRoomFromRecord_Some record va r) as
        (? & ? & ? & ? & ? & ? & st & _ & _ & _ & Hst & -> & _).
      - rewrite H. reflexivity.
      - cbn. apply state_of_entry_Some in Hst. tauto. }
    split; [exact Hv|].
    intros ops os r' Hrun. apply run_preserves in Hrun as (_ & _ & ->). exact Hv.
  - intros n. split; [reflexivity|].
    intros ops os r' Hrun. apply run_preserves in Hrun as (_ & _ & ->). reflexivity.
Qed.

Lemma state_in_enum_from_record_witness :
  valid_state "UNAVAILABLE"
  /\ (forall ops os r',
        run ops (mkRoom Sync.new 3 80 "UNAVAILABLE" (attrs_of_entry "quiet")) = (os, Returns r') ->
        valid_state (state r')).
Proof.
  exact (proj1 state_in_enum_from_record ["3"; "80"; "UNAVAILABLE"; "quiet"] [] _ eq_refl).
Defined.

(** *** Adding an attribute twice *)

Lemma run_cons_add (a : Attribute) (ops : list Op) (r : Room) :
  run (OpAddAttribute a :: ops) r =
    match AddAttribute a r with
    | Returns r' => let '(os, fin) := run ops r' in (ObsAdded :: os, fin)
    | Panics p => ([], Panics p)
    | Blocks => ([], Blocks)
    end.
Proof. cbn. destruct (AddAttribute a r); reflexivity. Qed.

Lemma AddAttribute_present (a : Attribute) (r : Room) :
  a ∈ attrs r -> Sync.unlocked (mu r) -> AddAttribute a r = Returns r.
Proof.
  intros Ha Hu. rewrite (AddAttribute_unlocked a r Hu).
  rewrite (subseteq_union_1_L {[a]} (attrs r)) by (apply singleton_subseteq_l; exact Ha).
  rewrite room_eta. reflexivity.
Qed.

Lemma AddAttribute_again (a : Attribute) (r r1 : Room) :
  AddAttribute a r = Returns r1 -> AddAttribute a r1 = Returns r1.
Proof.
  intros H. apply AddAttribute_inv in H as [Hu ->].
  apply AddAttribute_present; cbn; [|exact Hu].
  apply elem_of_union_l, elem_of_singleton. reflexivity.
Qed.

(** X29: on a room whose mutex is free, [AddAttribute] of an attribute
    the room already has returns the room unchanged; a call that has
    returned can be repeated at once and changes nothing; hence two runs
    that differ only by such an immediate repetition end alike and give the
    same results for all their [Satisfies] calls. *)
Theorem AddAttribute_idempotent (a : Attribute) (r : Room) :
  (a ∈ attrs r -> Sync.unlocked (mu r) -> AddAttribute a r = Returns r)
  /\ (forall r1, AddAttribute a r = Returns r1 -> AddAttribute a r1 = Returns r1)
  /\ (forall before after,
        satisfies_results
          (fst (run (before ++ OpAddAttribute a :: OpAddAttribute a :: after) r))
        = satisfies_results (fst (run (before ++ OpAddAttribute a :: after) r))
        /\ snd (run (before ++ OpAddAttribute a :: OpAddAttribute a :: after) r)
           = snd (run (before ++ OpAddAttribute a :: after) r)).
Proof.
  split; [apply AddAttribute_present|]. split; [apply AddAttribute_again|].
  intros before after. revert r.
  induction before as [|op before IH]; intros r.
  - cbn [app]. rewrite !run_cons_add.
    destruct (AddAttribute a r) as [r1| |] eqn:E; [|split; reflexivity..].
    rewrite run_cons_add, (AddAttribute_again a r r1 E).
    destruct (run after r1) as [os fin]. split; reflexivity.
  - cbn [app run].
    destruct (step op r) as [[o r1]| |]; [|split; reflexivity..].
    destruct (IH r1) as [IH1 IH2].
    destruct (run (before ++ OpAddAttribute a :: OpAddAttribute a :: after) r1) as [os2 fin2].
    destruct (run (before ++ OpAddAttribute a :: after) r1) as [os1 fin1].
    cbn [fst snd] in *. split; [|exact IH2].
    destruct o; cbn [satisfies_results]; congruence.
Qed.

Lemma AddAttribute_idempotent_witness :
  AddAttribute "smoking" (mkRoom Sync.new 5 90 "FREE" {["smoking"]})
  = Returns (mkRoom Sync.new 5 90 "FREE" {["smoking"]}).
Proof.
  apply (proj1 (proj2 (AddAttribute_idempotent "smoking"
                         (mkRoom Sync.new 5 90 "FREE" {["smoking"]})))).
  apply (proj1 (AddAttribute_idempotent "smoking"
                  (mkRoom Sync.new 5 90 "FREE" {["smoking"]}))).
  - cbn. apply elem_of_singleton. reflexivity.
  - split; reflexivity.
Defined.

(** C10 (the code departs from the claim): [Satisfies] keeps its read
    lock, so after any [Satisfies] on a room a call of [AddAttribute] never
    returns, also when the attribute is already in the set.  Such a call is
    no no-op: the run with it blocks at the call, while the run without it
    returns, with one more [Satisfies] result. *)
Theorem AddAttribute_of_present_blocks_after_Satisfies
    (a : Attribute) (want : list Attribute) (r : Room) :
  Sync.unlocked (mu r) ->
  (exists b r',
      run [OpAddAttribute a; OpSatisfies want; OpSatisfies want] r
      = ([ObsAdded; ObsSatisfies b; ObsSatisfies b], Returns r')
      /\ a ∈ attrs r'
      /\ run [OpAddAttribute a; OpSatisfies want; OpAddAttribute a; OpSatisfies want] r
         = ([ObsAdded; ObsSatisfies b], Blocks))
  /\ (a ∈ attrs r ->
      exists b r',
        run [OpSatisfies want; OpSatisfies want] r
        = ([ObsSatisfies b; ObsSatisfies b], Returns r')
        /\ run [OpSatisfies want; OpAddAttribute a; OpSatisfies want] r
           = ([ObsSatisfies b], Blocks)).
Proof.
  intros Hu. pose proof Hu as [Hw Hr]. split.
  - eexists _, _. cbn [run step].
    rewrite (AddAttribute_unlocked a r Hu). cbn [mbind outcome_bind mret outcome_ret].
    unfold Satisfies, Sync.RLock, Sync.RLocker, AddAttribute, Sync.Lock.
    cbn [mu id price state attrs Sync.writer Sync.readers]. rewrite Hw.
    cbn. split; [reflexivity|]. split; [|reflexivity].
    apply elem_of_union_l, elem_of_singleton. reflexivity.
  - intros _. eexists _, _. cbn [run step].
    unfold Satisfies, Sync.RLock, Sync.RLocker, AddAttribute, Sync.Lock.
    cbn [mu id price state attrs Sync.writer Sync.readers]. rewrite Hw.
    cbn. split; reflexivity.
Qed.

Lemma AddAttribute_of_present_blocks_after_Satisfies_witness :
  exists b r',
    run [OpAddAttribute "smoking"; OpSatisfies ["smoking"]; OpSatisfies ["smoking"]] (NewRoom 5)
    = ([ObsAdded; ObsSatisfies b; ObsSatisfies b], Returns r')
    /\ "smoking" ∈ attrs r'
    /\ run [OpAddAttribute "smoking"; OpSatisfies ["smoking"];
            OpAddAttribute "smoking"; OpSatisfies ["smoking"]] (NewRoom 5)
       = ([ObsAdded; ObsSatisfies b], Blocks).
Proof.
  exact (proj1 (AddAttribute_of_present_blocks_after_Satisfies "smoking" ["smoking"]
                  (NewRoom 5) (conj eq_refl eq_refl))).
Defined.

End room_props.

(** ** The registry *)
Module hotel_props.
Import hotel.
Import room_props.

(** *** Attribute source *)

Lemma split_from_not_nil (sep : string) (s : string) (skip : nat) (cur : string) :
  Strings.split_from sep skip cur s <> [].
Proof.
  revert skip cur. induction s as [|c s IH]; intros skip cur;
    cbn [Strings.split_from]; [discriminate|].
  destruct skip; [|apply IH].
  destruct (String.prefix sep (String c s)); [discriminate | apply IH].
Qed.

(** The loop never panics; it appends, in the order of the lines and with
    repetitions, the first piece of every line that is not skipped. *)
Lemma scan_loop_spec (lines : list string) (acc : list room.Attribute) :
  scan_loop lines acc = Returns (acc ++ List.filter kept (List.map first_piece lines))%list.
Proof.
  revert acc. induction lines as [|text lines IH]; intros acc; cbn.
  - rewrite app_nil_r. reflexivity.
  - unfold first_piece, kept.
    destruct (Strings.Split text space_tab) as [|attr l] eqn:E.
    { exfalso. exact (split_from_not_nil _ _ _ _ E). }
    destruct (String.eqb attr "" || String.eqb attr "#"); cbn; rewrite IH; [reflexivity|].
    rewrite <- app_assoc. reflexivity.
Qed.

Lemma loadAttributes_spec (fs : FileSystem) (attrData : string) (f : File) (h : Hotel) :
  fs attrData = Some f -> Sync.unlocked (mu h) ->
  loadAttributes fs attrData h =
    Returns (mkHotel (mu h) (numRooms h) (rooms h)
               (roomAttrs h ++ List.filter kept (List.map first_piece (scan_lines f)))%list,
             None).
Proof.
  intros Hf [Hw Hr]. unfold loadAttributes, Sync.Lock. rewrite Hf, Hw, Hr. cbn.
  rewrite scan_loop_spec. cbn. rewrite <- Hw, <- Hr at 1. rewrite mutex_eta. reflexivity.
Qed.

Lemma loadAttributes_open_fails (fs : FileSystem) (attrData : string) (h : Hotel) :
  fs attrData = None ->
  loadAttributes fs attrData h = Returns (h, Some (ErrAttrsOpen attrData)).
Proof. intros Hf. unfold loadAttributes. rewrite Hf. reflexivity. Qed.

Lemma append_snoc (a : string) (c : ascii) (s : string) :
  ((a ++ String c EmptyString) ++ s)%string = (a ++ String c s)%string.
Proof.
  induction a as [|x a IH]; [reflexivity|].
  change (String x ((a ++ String c EmptyString) ++ s) = String x (a ++ String c s))%string.
  f_equal. exact IH.
Qed.

Lemma append_empty_r (a : string) : (a ++ EmptyString)%string = a.
Proof.
  induction a as [|x a IH]; [reflexivity|].
  change (String x (a ++ EmptyString)%string = String x a). f_equal. exact IH.
Qed.

Lemma prefix_cons (a b : ascii) (s1 s2 : string) :
  String.prefix (String a s1) (String b s2)
  = if ascii_dec a b then String.prefix s1 s2 else false.
Proof. reflexivity. Qed.

Lemma prefix_space_tab_no_tab (s : string) :
  no_tab s = true -> String.prefix space_tab s = false.
Proof.
  unfold space_tab. destruct s as [|c s]; [reflexivity|].
  rewrite prefix_cons. destruct (ascii_dec " " c) as [_|_]; [|reflexivity].
  destruct s as [|c' s]; [reflexivity|].
  rewrite prefix_cons. cbn [no_tab].
  destruct (ascii_dec (ascii_of_N 9) c') as [<-|_]; [|reflexivity].
  rewrite Ascii.eqb_refl, andb_false_r. discriminate.
Qed.

Lemma split_from_no_tab (s cur : string) :
  no_tab s = true -> Strings.split_from space_tab 0 cur s = [(cur ++ s)%string].
Proof.
  revert cur. induction s as [|c s IH]; intros cur Hs.
  - cbn [Strings.split_from]. rewrite append_empty_r. reflexivity.
  - cbn [Strings.split_from]. rewrite (prefix_space_tab_no_tab _ Hs).
    cbn in Hs. apply andb_true_iff in Hs as [_ Hs].
    rewrite (IH _ Hs), append_snoc. reflexivity.
Qed.

(** A line without a tab is not cut at all: its spaces do not separate. *)
Lemma first_piece_no_tab (text : string) :
  no_tab text = true -> first_piece text = text.
Proof.
  intros H. unfold first_piece, Strings.Split. rewrite (split_from_no_tab _ _ H).
  reflexivity.
Qed.

(** C3 (the code departs from the claim): [loadAttributes] cuts a line at
    the two-byte string made of a space followed by a tab, not at white
    space.  A line is therefore taken whole unless it holds that pair: the
    line ["view  ocean"] contributes ["view  ocean"], not ["view"], and the
    line ["# comment"] contributes ["# comment"]; only the blank line is
    skipped.  Kept names are appended in file order, not deduplicated. *)
Theorem loadAttributes_cuts_at_space_tab_only
    (fs : FileSystem) (attrData : string) (f : File) (h : Hotel) :
  fs attrData = Some f -> Sync.unlocked (mu h) ->
  scan_lines f = ["# comment"; ""; "view  ocean"] ->
  loadAttributes fs attrData h =
    Returns (mkHotel (mu h) (numRooms h) (rooms h)
               (roomAttrs h ++ ["# comment"; "view  ocean"])%list, None).
Proof.
  intros Hf Hu Hl. rewrite (loadAttributes_spec fs attrData f h Hf Hu), Hl.
  reflexivity.
Qed.

Lemma loadAttributes_cuts_at_space_tab_only_witness :
  loadAttributes fs_attrs_sample "attrs.txt" emptyHotel =
    Returns (mkHotel Sync.new 0 ∅ ["# comment"; "view  ocean"], None).
Proof.
  apply (loadAttributes_cuts_at_space_tab_only fs_attrs_sample "attrs.txt"
           (mkFile None ["# comment"; ""; "view  ocean"] []) emptyHotel).
  - reflexivity.
  - split; reflexivity.
  - reflexivity.
Defined.

(** *** Room source *)

Lemma read_loop_header (header : list string) (rest : list ReadResult)
    (va : list room.Attribute) (strict : bool) (acc : gmap N room.Room) :
  read_loop (ReadRecord header :: rest) true va strict acc
  = read_loop rest false va strict acc.
Proof. reflexivity. Qed.

(** Accepted records go into the local map one after the other. *)
Lemma read_loop_accepted (records : list (list string)) (rest : list ReadResult)
    (va : list room.Attribute) (strict : bool) (acc : gmap N room.Room) :
  Forall (well_formed va) records ->
  read_loop (List.map ReadRecord records ++ rest) false va strict acc
  = read_loop rest false va strict (insert_records va records acc).
Proof.
  intros Hall. revert acc. induction Hall as [|record records [r Hr] _ IH]; intros acc.
  - reflexivity.
  - cbn [List.map app read_loop insert_records foldl].
    destruct (room_props.NewRoomFromRecord_Some record va r Hr)
      as (_ & _ & _ & _ & _ & _ & _ & _ & _ & _ & _ & _ & Heq).
    unfold insert_record at 2. rewrite Heq. cbn [fst]. destruct strict; apply IH.
Qed.

(** A refused record: the error is returned in strict mode; otherwise the
    nil room is dereferenced. *)
Lemma read_loop_refused (record : list string) (rest : list ReadResult)
    (va : list room.Attribute) (strict : bool) (acc : gmap N room.Room)
    (e : room.RecordError) :
  room.NewRoomFromRecord record va = (None, Some e) ->
  read_loop (ReadRecord record :: rest) false va strict acc
  = if strict then Returns (acc, Some (ErrRoomParse e)) else Panics NilDereference.
Proof. intros H. cbn [read_loop]. rewrite H. destruct strict; reflexivity. Qed.

Lemma read_loop_read_error (msg : string) (rest : list ReadResult) (initial : bool)
    (va : list room.Attribute) (strict : bool) (acc : gmap N room.Room) :
  read_loop (ReadError msg :: rest) initial va strict acc
  = Returns (acc, Some (ErrReadFatal msg)).
Proof. reflexivity. Qed.

Lemma merge_rooms_union (parsed into : gmap N room.Room) :
  merge_rooms parsed into = parsed ∪ into.
Proof.
  unfold merge_rooms.
  apply (map_fold_weak_ind (fun acc m => acc = m ∪ into)).
  - rewrite (left_id_L ∅ (∪)). reflexivity.
  - intros i x m acc _ ->. apply insert_union_l.
Qed.

(** [loadRooms] in terms of its loop. *)
Lemma loadRooms_spec (fs : FileSystem) (roomData : string) (strict : bool)
    (f : File) (h : Hotel) :
  fs roomData = Some f -> Sync.unlocked (mu h) ->
  loadRooms fs roomData strict h =
    match read_loop (csv_reads f) true (roomAttrs h) strict ∅ with
    | Returns (parsed, None) =>
        Returns (mkHotel (mu h) (numRooms h) (parsed ∪ rooms h) (roomAttrs h), None)
    | Returns (_, Some e) => Returns (h, Some e)
    | Panics p => Panics p
    | Blocks => Blocks
    end.
Proof.
  intros Hf [Hw Hr]. unfold loadRooms. rewrite Hf.
  destruct (read_loop _ _ _ _ _) as [[parsed [e|]]| |]; try reflexivity.
  cbn. unfold Sync.Lock. rewrite Hw, Hr. cbn. rewrite merge_rooms_union.
  rewrite <- Hw, <- Hr at 1. rewrite mutex_eta. reflexivity.
Qed.

Lemma loadRooms_open_fails (fs : FileSystem) (roomData : string) (strict : bool)
    (h : Hotel) :
  fs roomData = None ->
  loadRooms fs roomData strict h = Returns (h, Some (ErrRoomsOpen roomData)).
Proof. intros Hf. unfold loadRooms. rewrite Hf. reflexivity. Qed.

Lemma loadRooms_loop_error (fs : FileSystem) (roomData : string) (strict : bool)
    (f : File) (h : Hotel) (parsed : gmap N room.Room) (e : LoadError) :
  fs roomData = Some f ->
  read_loop (csv_reads f) true (roomAttrs h) strict ∅ = Returns (parsed, Some e) ->
  loadRooms fs roomData strict h = Returns (h, Some e).
Proof. intros Hf Hl. unfold loadRooms. rewrite Hf, Hl. reflexivity. Qed.

Lemma loadRooms_loop_panics (fs : FileSystem) (roomData : string) (strict : bool)
    (f : File) (h : Hotel) (p : Panic) :
  fs roomData = Some f ->
  read_loop (csv_reads f) true (roomAttrs h) strict ∅ = Panics p ->
  loadRooms fs roomData strict h = Panics p.
Proof. intros Hf Hl. unfold loadRooms. rewrite Hf, Hl. reflexivity. Qed.

(** The three ways [loadRooms] fails, each leaving the registry alone:
    the file does not open ([loadRooms_open_fails]), a read fails, or, in
    strict mode, a record is refused. *)
Lemma loadRooms_read_failure (fs : FileSystem) (roomData : string) (strict : bool)
    (f : File) (h : Hotel) (header : list string) (records : list (list string))
    (msg : string) (rest : list ReadResult) :
  fs roomData = Some f ->
  csv_reads f = ReadRecord header :: List.map ReadRecord records ++ ReadError msg :: rest ->
  Forall (well_formed (roomAttrs h)) records ->
  loadRooms fs roomData strict h = Returns (h, Some (ErrReadFatal msg)).
Proof.
  intros Hf Hc Hall.
  apply (loadRooms_loop_error fs roomData strict f h (insert_records (roomAttrs h) records ∅));
    [exact Hf|].
  rewrite Hc, read_loop_header, (read_loop_accepted _ _ _ _ _ Hall). reflexivity.
Qed.

Lemma loadRooms_strict_parse_failure (fs : FileSystem) (roomData : string)
    (f : File) (h : Hotel) (header : list string) (records : list (list string))
    (bad : list string) (e : room.RecordError) (rest : list ReadResult) :
  fs roomData = Some f ->
  csv_reads f = ReadRecord header :: List.map ReadRecord records ++ ReadRecord bad :: rest ->
  Forall (well_formed (roomAttrs h)) records ->
  room.NewRoomFromRecord bad (roomAttrs h) = (None, Some e) ->
  loadRooms fs roomData true h = Returns (h, Some (ErrRoomParse e)).
Proof.
  intros Hf Hc Hall Hbad.
  apply (loadRooms_loop_error fs roomData true f h (insert_records (roomAttrs h) records ∅));
    [exact Hf|].
  rewrite Hc, read_loop_header, (read_loop_accepted _ _ _ _ _ Hall).
  rewrite (read_loop_refused _ _ _ _ _ _ Hbad). reflexivity.
Qed.

(** Without strict mode a refused record is not skipped: the loop goes on
    to [room.ID()] with the nil room. *)
Lemma loadRooms_nonstrict_refused_panics (fs : FileSystem) (roomData : string)
    (f : File) (h : Hotel) (header : list string) (records : list (list string))
    (bad : list string) (e : room.RecordError) (rest : list ReadResult) :
  fs roomData = Some f ->
  csv_reads f = ReadRecord header :: List.map ReadRecord records ++ ReadRecord bad :: rest ->
  Forall (well_formed (roomAttrs h)) records ->
  room.NewRoomFromRecord bad (roomAttrs h) = (None, Some e) ->
  loadRooms fs roomData false h = Panics NilDereference.
Proof.
  intros Hf Hc Hall Hbad. apply (loadRooms_loop_panics fs roomData false f h); [exact Hf|].
  rewrite Hc, read_loop_header, (read_loop_accepted _ _ _ _ _ Hall).
  rewrite (read_loop_refused _ _ _ _ _ _ Hbad). reflexivity.
Qed.

Lemma bad_price_refused (record : list string) (va : list room.Attribute) :
  bad_price record -> exists e, room.NewRoomFromRecord record va = (None, Some e).
Proof.
  intros (eID & ePrice & eState & eAttrs & e & -> & He). cbn.
  destruct (Strconv.ParseUint eID); [eauto|]. rewrite He. eauto.
Qed.

(** [NewHotelFromData] once the attribute file has opened. *)
Lemma NewHotelFromData_attrs_loaded (fs : FileSystem) (attrData roomData : string)
    (strict : bool) (fa : File) :
  fs attrData = Some fa ->
  exists h1, roomAttrs h1 = List.filter kept (List.map first_piece (scan_lines fa))
    /\ rooms h1 = ∅ /\ mu h1 = Sync.new
    /\ loadAttributes fs attrData emptyHotel = Returns (h1, None)
    /\ NewHotelFromData fs attrData roomData strict =
       match loadRooms fs roomData strict h1 with
       | Returns (h2, None) =>
           Returns (Some (mkHotel (mu h2) (to_uint (N.of_nat (size (rooms h2))))
                            (rooms h2) (roomAttrs h2)), None)
       | Returns (_, Some e) => Returns (None, Some e)
       | Panics p => Panics p
       | Blocks => Blocks
       end.
Proof.
  intros Hf. eexists. split; [|split; [|split; [|split]]]; cycle 3.
  - apply (loadAttributes_spec fs attrData fa emptyHotel Hf). split; reflexivity.
  - unfold NewHotelFromData.
    rewrite (loadAttributes_spec fs attrData fa emptyHotel Hf) by (split; reflexivity).
    cbn. destruct (loadRooms _ _ _ _) as [[h2 [e|]]| |]; reflexivity.
  - reflexivity.
  - reflexivity.
  - reflexivity.
Qed.

(** C1 (the code departs from the claim): with [strict] false, a room
    source made of a header, a well-formed record and a record whose price
    is not a number, in either order, makes [loadRooms] panic on a nil
    pointer at [room.ID()]; the refused record is not dropped, no registry
    is produced, and [NewHotelFromData] panics in the same way. *)
Theorem loadRooms_nonstrict_bad_price_panics
    (fs : FileSystem) (attrData roomData : string) (fa f : File) (h : Hotel)
    (header good bad : list string) :
  fs roomData = Some f ->
  csv_reads f = [ReadRecord header; ReadRecord good; ReadRecord bad]
  \/ csv_reads f = [ReadRecord header; ReadRecord bad; ReadRecord good] ->
  well_formed (roomAttrs h) good ->
  bad_price bad ->
  loadRooms fs roomData false h = Panics NilDereference
  /\ (fs attrData = Some fa ->
      NewHotelFromData fs attrData roomData false = Panics NilDereference).
Proof.
  intros Hf Hc Hgood Hbad.
  assert (Hany : forall h0, loadRooms fs roomData false h0 = Panics NilDereference).
  { intros h0. destruct (bad_price_refused bad (roomAttrs h0) Hbad) as [e He].
    destruct Hc as [Hc | Hc].
    - apply (loadRooms_nonstrict_refused_panics fs roomData f h0 header [good] bad e []);
        [exact Hf | exact Hc | | exact He].
      constructor; [exact Hgood | constructor].
    - apply (loadRooms_nonstrict_refused_panics fs roomData f h0 header [] bad e
               [ReadRecord good]); [exact Hf | exact Hc | constructor | exact He]. }
  split; [apply Hany|]. intros Hfa.
  destruct (NewHotelFromData_attrs_loaded fs attrData roomData false fa Hfa)
    as (h1 & _ & _ & _ & _ & ->).
  rewrite Hany. reflexivity.
Qed.

Lemma loadRooms_nonstrict_bad_price_panics_witness :
  loadRooms fs_bad_price "rooms.csv" false emptyHotel = Panics NilDereference
  /\ NewHotelFromData fs_bad_price "attrs.txt" "rooms.csv" false = Panics NilDereference.
Proof.
  destruct (loadRooms_nonstrict_bad_price_panics fs_bad_price "attrs.txt" "rooms.csv"
              (mkFile None ["sea-view"; "smoking"] [])
              (mkFile None [] [ReadRecord ["id"; "price"; "state"; "attributes"];
                          ReadRecord ["101"; "120"; "FREE"; "sea-view"];
                          ReadRecord ["102"; "abc"; "FREE"; "smoking"]])
              emptyHotel
              ["id"; "price"; "state"; "attributes"]
              ["101"; "120"; "FREE"; "sea-view"]
              ["102"; "abc"; "FREE"; "smoking"]) as [H1 H2].
  - reflexivity.
  - left. reflexivity.
  - eexists. reflexivity.
  - exists "102", "abc", "FREE", "smoking", Strconv.ErrSyntax. split; reflexivity.
  - split; [exact H1 | exact (H2 eq_refl)].
Defined.

(** *** Failed loads *)



Lemma loadRooms_ok_inv (fs : FileSystem) (roomData : string) (strict : bool)
    (h h' : Hotel) :
  loadRooms fs roomData strict h = Returns (h', None) ->
  exists f parsed,
    fs roomData = Some f
    /\ read_loop (csv_reads f) true (roomAttrs h) strict ∅ = Returns (parsed, None)
    /\ rooms h' = parsed ∪ rooms h
    /\ roomAttrs h' = roomAttrs h.
Proof.
  unfold loadRooms. destruct (fs roomData) as [f|]; [|discriminate].
  destruct (read_loop _ _ _ _ _) as [[parsed [e'|]]| |] eqn:E; cbn; try discriminate.
  destruct (Sync.Lock (mu h)) as [m1| |]; cbn; try discriminate.
  destruct (Sync.Unlock m1); cbn; try discriminate.
  intros [= <-]. exists f, parsed. cbn. rewrite merge_rooms_union.
  repeat split; [exact E].
Qed.



(** *** Records with the same room number *)

Lemma insert_records_app (va : list room.Attribute) (l1 l2 : list (list string))
    (acc : gmap N room.Room) :
  insert_records va (l1 ++ l2) acc = insert_records va l2 (insert_records va l1 acc).
Proof. unfold insert_records. apply foldl_app. Qed.

(** Records with other room numbers leave an entry alone. *)
Lemma insert_records_other (va : list room.Attribute) (records : list (list string))
    (acc : gmap N room.Room) (i : N) :
  (forall record r, record ∈ records ->
     fst (room.NewRoomFromRecord record va) = Some r -> room.ID r <> i) ->
  insert_records va records acc !! i = acc !! i.
Proof.
  revert acc. induction records as [|record records IH]; intros acc Hne; [reflexivity|].
  cbn [insert_records foldl]. fold (insert_records va records (insert_record va acc record)).
  rewrite IH.
  - unfold insert_record.
    destruct (fst (room.NewRoomFromRecord record va)) as [r|] eqn:E; [|reflexivity].
    apply lookup_insert_ne. apply (Hne record r); [constructor | exact E].
  - intros record' r' Hin. apply Hne. constructor. exact Hin.
Qed.

(** The last record with a given room number decides the entry. *)
Lemma insert_records_last (va : list room.Attribute)
    (before after : list (list string)) (record : list string) (r : room.Room)
    (acc : gmap N room.Room) :
  fst (room.NewRoomFromRecord record va) = Some r ->
  (forall record' r', record' ∈ after ->
     fst (room.NewRoomFromRecord record' va) = Some r' -> room.ID r' <> room.ID r) ->
  insert_records va (before ++ record :: after) acc !! room.ID r = Some r.
Proof.
  intros Hr Hafter.
  rewrite insert_records_app.
  change (insert_records va (record :: after) ?m)
    with (insert_records va after (insert_record va m record)).
  rewrite (insert_records_other va after _ _ Hafter).
  unfold insert_record. rewrite Hr. apply lookup_insert_eq.
Qed.

(** A source of well-formed records loads, in strict mode or not. *)
Lemma loadRooms_well_formed (fs : FileSystem) (roomData : string) (strict : bool)
    (f : File) (h : Hotel) (header : list string) (records : list (list string)) :
  fs roomData = Some f ->
  csv_reads f = ReadRecord header :: List.map ReadRecord records ->
  Forall (well_formed (roomAttrs h)) records ->
  Sync.unlocked (mu h) ->
  loadRooms fs roomData strict h =
    Returns (mkHotel (mu h) (numRooms h)
               (insert_records (roomAttrs h) records ∅ ∪ rooms h) (roomAttrs h), None).
Proof.
  intros Hf Hc Hall Hu. rewrite (loadRooms_spec fs roomData strict f h Hf Hu), Hc.
  rewrite read_loop_header.
  rewrite <- (app_nil_r (List.map ReadRecord records)).
  rewrite (read_loop_accepted _ _ _ _ _ Hall). reflexivity.
Qed.

(** A load that succeeds has accepted every record. *)
Lemma read_loop_accepted_inv (records : list (list string))
    (va : list room.Attribute) (strict : bool) (acc parsed : gmap N room.Room) :
  read_loop (List.map ReadRecord records) false va strict acc = Returns (parsed, None) ->
  Forall (well_formed va) records.
Proof.
  revert acc. induction records as [|record records IH]; intros acc; [constructor|].
  cbn [List.map read_loop].
  destruct (room_props.NewRoomFromRecord_shape record va) as [[r Hr] | [e He]].
  - rewrite Hr. intros H. constructor.
    + exists r. rewrite Hr. reflexivity.
    + destruct strict; exact (IH _ H).
  - rewrite He. destruct strict; discriminate.
Qed.

(** A load that succeeds has met no failed read: its source is empty, or
    a header followed by records. *)
Lemma read_loop_ok_reads (reads : list ReadResult)
    (va : list room.Attribute) (strict : bool) (acc parsed : gmap N room.Room) :
  read_loop reads false va strict acc = Returns (parsed, None) ->
  exists records, reads = List.map ReadRecord records.
Proof.
  revert acc. induction reads as [|[record|msg] rest IH]; intros acc.
  - intros _. exists []. reflexivity.
  - cbn [read_loop].
    destruct (room_props.NewRoomFromRecord_shape record va) as [[r Hr] | [e He]].
    + rewrite Hr. intros H.
      assert (Hrest : exists records, rest = List.map ReadRecord records)
        by (destruct strict; exact (IH _ H)).
      destruct Hrest as [records ->]. exists (record :: records). reflexivity.
    + rewrite He. destruct strict; discriminate.
  - discriminate.
Qed.

Lemma loadRooms_ok_reads (fs : FileSystem) (roomData : string) (strict : bool)
    (h h' : Hotel) :
  loadRooms fs roomData strict h = Returns (h', None) ->
  exists f, fs roomData = Some f
    /\ (csv_reads f = []
        \/ exists header records,
             csv_reads f = ReadRecord header :: List.map ReadRecord records).
Proof.
  intros H. destruct (loadRooms_ok_inv _ _ _ _ _ H) as (f & parsed & Hf & Hl & _).
  exists f. split; [exact Hf|].
  destruct (csv_reads f) as [|[header|msg] rest]; [left; reflexivity | | discriminate].
  right. rewrite read_loop_header in Hl.
  destruct (read_loop_ok_reads _ _ _ _ _ Hl) as [records ->]. eauto.
Qed.

(** X30: a room source whose reads all succeed yields a registry exactly
    when its records after the header are well formed.  Under the number
    that the id entry of a record denotes, the registry then holds a room
    with the price, the state and the comma-separated attributes of the last
    record in file order that carries this number, whatever was there before
    the load; a number that no record carries keeps the entry it had, or
    none. *)
Theorem loadRooms_last_record_decides
    (fs : FileSystem) (roomData : string) (strict : bool) (f : File) (h : Hotel)
    (header : list string) (records : list (list string)) :
  fs roomData = Some f ->
  csv_reads f = ReadRecord header :: List.map ReadRecord records ->
  Sync.unlocked (mu h) ->
  (Forall (well_formed (roomAttrs h)) records
   <-> exists h', loadRooms fs roomData strict h = Returns (h', None))
  /\ (forall h', loadRooms fs roomData strict h = Returns (h', None) ->
        (forall before after eID ePrice eState eAttrs i p,
            records = (before ++ [eID; ePrice; eState; eAttrs] :: after)%list ->
            Strconv.ParseUint eID = inr i ->
            Strconv.ParseUint ePrice = inr p ->
            (forall record' eID' i', record' ∈ after ->
               record' !! 0%nat = Some eID' ->
               Strconv.ParseUint eID' = inr i' -> i' <> i) ->
            exists r,
              rooms h' !! i = Some r
              /\ room.ID r = i /\ room.price r = p
              /\ room.state r = eState /\ room.valid_state eState
              /\ (forall a, a ∈ room.attrs r <-> a ∈ Strings.Split eAttrs ","))
        /\ (forall i,
              (forall record eID, record ∈ records ->
                 record !! 0%nat = Some eID -> Strconv.ParseUint eID <> inr i) ->
              rooms h' !! i = rooms h !! i)).
Proof.
  intros Hf Hc Hu.
  assert (Hinv : forall h', loadRooms fs roomData strict h = Returns (h', None) ->
                            Forall (well_formed (roomAttrs h)) records).
  { intros h' H. destruct (loadRooms_ok_inv _ _ _ _ _ H) as (f' & parsed & Hf' & Hl & _).
    rewrite Hf in Hf'. injection Hf' as <-.
    rewrite Hc, read_loop_header in Hl. exact (read_loop_accepted_inv _ _ _ _ _ Hl). }
  assert (Hid : forall record r,
             fst (room.NewRoomFromRecord record (roomAttrs h)) = Some r ->
             exists eID, record !! 0%nat = Some eID
                         /\ Strconv.ParseUint eID = inr (room.ID r)).
  { intros record r Hr.
    destruct (room_props.NewRoomFromRecord_Some _ _ _ Hr)
      as (eID & ? & ? & ? & id64 & ? & ? & -> & Hp & _ & _ & -> & _).
    exists eID. split; [reflexivity|]. cbn.
    rewrite (room_props.ParseUint_to_uint _ _ Hp). exact Hp. }
  split.
  - split.
    + intros Hall. eexists.
      exact (loadRooms_well_formed fs roomData strict f h header records Hf Hc Hall Hu).
    + intros [h' H]. exact (Hinv h' H).
  - intros h' H. pose proof (Hinv h' H) as Hall.
    rewrite (loadRooms_well_formed fs roomData strict f h header records Hf Hc Hall Hu) in H.
    injection H as <-. cbn [rooms]. split.
    + intros before after eID ePrice eState eAttrs i p -> Hi Hp Hafter.
      apply Forall_app in Hall as [_ Hall]. apply Forall_cons in Hall as [[r Hr] _].
      destruct (room_props.NewRoomFromRecord_Some _ _ _ Hr)
        as (? & ? & ? & ? & id64 & price64 & st & [= <- <- <- <-] & Hi' & Hp' & Hst & Heq & _).
      rewrite Hi in Hi'. injection Hi' as <-. rewrite Hp in Hp'. injection Hp' as <-.
      apply room_props.state_of_entry_Some in Hst as [-> Hst].
      assert (HID : room.ID r = i).
      { rewrite Heq. cbn. exact (room_props.ParseUint_to_uint _ _ Hi). }
      exists r. split.
      { rewrite <- HID. apply lookup_union_Some_l. apply insert_records_last; [exact Hr|].
        intros record' r' Hin Hr'. destruct (Hid record' r' Hr') as (eID' & H0 & Hp').
        rewrite HID. exact (Hafter record' eID' _ Hin H0 Hp'). }
      split; [exact HID|]. rewrite Heq. cbn [room.price room.state room.attrs].
      split; [exact (room_props.ParseUint_to_uint _ _ Hp)|].
      split; [reflexivity|]. split; [exact Hst|].
      intros a. apply room_props.elem_of_attrs_of_entry.
    + intros i Hi.
      apply lookup_union_r. rewrite insert_records_other; [apply lookup_empty|].
      intros record r Hin Hr Heq. destruct (Hid record r Hr) as (eID & H0 & Hp).
      rewrite Heq in Hp. exact (Hi record eID Hin H0 Hp).
Qed.

Lemma duplicate_records_well_formed : Forall (well_formed []) duplicate_records.
Proof. repeat constructor; eexists; reflexivity. Qed.

Lemma loadRooms_last_record_decides_witness :
  exists h' r,
    loadRooms fs_duplicates "rooms.csv" false emptyHotel = Returns (h', None)
    /\ rooms h' !! 101 = Some r
    /\ room.ID r = 101 /\ room.price r = 95 /\ room.state r = "OCCUPIED"
    /\ (forall a, a ∈ room.attrs r <-> a ∈ ["smoking"; "balcony"])
    /\ rooms h' !! 8 = None.
Proof.
  destruct (loadRooms_last_record_decides fs_duplicates "rooms.csv" false
              (mkFile None [] (ReadRecord ["id"; "price"; "state"; "attributes"]
                                 :: List.map ReadRecord duplicate_records))
              emptyHotel ["id"; "price"; "state"; "attributes"] duplicate_records
              eq_refl eq_refl (conj eq_refl eq_refl))
    as [Hiff Hrooms].
  destruct (proj1 Hiff duplicate_records_well_formed) as [h' Hload].
  destruct (Hrooms h' Hload) as [Hlast Hother].
  destruct (Hlast [["101"; "120"; "FREE"; "sea-view"]; ["7"; "60"; "UNAVAILABLE"; ""]] []
              "0101" "95" "OCCUPIED" "smoking,balcony" 101 95 eq_refl eq_refl eq_refl)
    as (r & Hr & HID & Hprice & Hstate & _ & Hattrs).
  { intros record' eID' i' Hin. inversion Hin. }
  exists h', r. split; [exact Hload|]. split; [exact Hr|].
  split; [exact HID|]. split; [exact Hprice|]. split; [exact Hstate|].
  split; [exact Hattrs|].
  refine (eq_trans (Hother 8 _) eq_refl).
  intros record eID Hin H0.
  repeat (apply elem_of_cons in Hin as [-> | Hin];
          [injection H0 as <-; discriminate|]).
  inversion Hin.
Defined.

(** *** What a failed read of the attribute source does *)

(** C6 (the code departs from the claim): [loadAttributes] never consults
    [scanner.Err()].  When the reading of the attribute source fails after
    some lines, it returns no error, the names read so far being appended,
    and [NewHotelFromData] goes on to the room source and returns a
    registry, built on the truncated vocabulary. *)
Theorem failed_attribute_read_is_not_reported
    (fs : FileSystem) (attrData roomData : string) (strict : bool)
    (fa fr : File) (msg : string) (header : list string) (records : list (list string)) :
  fs attrData = Some fa -> scan_err fa = Some msg ->
  fs roomData = Some fr ->
  csv_reads fr = ReadRecord header :: List.map ReadRecord records ->
  Forall (well_formed []) records ->
  loadAttributes fs attrData emptyHotel
  = Returns (mkHotel Sync.new 0 ∅ (List.filter kept (List.map first_piece (scan_lines fa))),
             None)
  /\ exists h,
       NewHotelFromData fs attrData roomData strict = Returns (Some h, None)
       /\ roomAttrs h = List.filter kept (List.map first_piece (scan_lines fa))
       /\ rooms h = insert_records [] records ∅.
Proof.
  intros Hfa _ Hfr Hc Hall. split.
  - exact (loadAttributes_spec fs attrData fa emptyHotel Hfa (conj eq_refl eq_refl)).
  - destruct (NewHotelFromData_attrs_loaded fs attrData roomData strict fa Hfa)
      as (h1 & Hva & Hrooms & Hmu & _ & ->).
    assert (Hu : Sync.unlocked (mu h1)) by (rewrite Hmu; split; reflexivity).
    rewrite (loadRooms_well_formed fs roomData strict fr h1 header records Hfr Hc Hall Hu).
    eexists. split; [reflexivity|]. cbn [roomAttrs rooms]. split; [exact Hva|].
    rewrite Hrooms, (right_id_L ∅ (∪)). reflexivity.
Qed.

Lemma failed_attribute_read_is_not_reported_witness :
  loadAttributes fs_failed_scan "attrs.txt" emptyHotel
  = Returns (mkHotel Sync.new 0 ∅ ["sea-view"], None)
  /\ exists h,
       NewHotelFromData fs_failed_scan "attrs.txt" "rooms.csv" true = Returns (Some h, None)
       /\ roomAttrs h = ["sea-view"]
       /\ rooms h = insert_records [] [["101"; "120"; "FREE"; "sea-view"]] ∅.
Proof.
  apply (failed_attribute_read_is_not_reported fs_failed_scan "attrs.txt" "rooms.csv" true
           (mkFile (Some "bufio.Scanner: token too long") ["sea-view"] [])
           (mkFile None [] [ReadRecord ["id"; "price"; "state"; "attributes"];
                            ReadRecord ["101"; "120"; "FREE"; "sea-view"]])
           "bufio.Scanner: token too long"
           ["id"; "price"; "state"; "attributes"] [["101"; "120"; "FREE"; "sea-view"]]).
  - reflexivity.
  - reflexivity.
  - reflexivity.
  - reflexivity.
  - repeat constructor. eexists. reflexivity.
Defined.

(** *** Records with the same room number and a refused record *)

(** C7 (the code departs from the claim): with [strict] false, a room
    source in which two well-formed records share a room number and a later
    record is refused yields no registry: [loadRooms] panics on the nil room
    at the refused record, and so does [NewHotelFromData]; the refused
    record is not dropped, and no room is stored under the shared number. *)
Theorem duplicates_then_refused_record_panics
    (fs : FileSystem) (attrData roomData : string) (fa f : File) (h : Hotel)
    (header first second bad : list string)
    (before between after : list (list string)) (rest : list ReadResult)
    (r1 r2 : room.Room) :
  fs roomData = Some f ->
  csv_reads f
  = ReadRecord header
      :: (List.map ReadRecord (before ++ first :: between ++ second :: after)
          ++ ReadRecord bad :: rest)%list ->
  Forall (well_formed (roomAttrs h)) (before ++ first :: between ++ second :: after) ->
  fst (room.NewRoomFromRecord first (roomAttrs h)) = Some r1 ->
  fst (room.NewRoomFromRecord second (roomAttrs h)) = Some r2 ->
  room.ID r1 = room.ID r2 ->
  ~ well_formed (roomAttrs h) bad ->
  loadRooms fs roomData false h = Panics NilDereference
  /\ (fs attrData = Some fa ->
      NewHotelFromData fs attrData roomData false = Panics NilDereference).
Proof.
  intros Hf Hc Hall _ _ _ Hbad.
  assert (Hany : forall h0, loadRooms fs roomData false h0 = Panics NilDereference).
  { intros h0.
    destruct (room_props.NewRoomFromRecord_shape bad (roomAttrs h0)) as [[r Hr] | [e He]].
    - destruct Hbad. exists r.
      change (fst (room.NewRoomFromRecord bad (roomAttrs h0)) = Some r).
      rewrite Hr. reflexivity.
    - exact (loadRooms_nonstrict_refused_panics fs roomData f h0 header _ bad e rest
               Hf Hc Hall He). }
  split; [apply Hany|]. intros Hfa.
  destruct (NewHotelFromData_attrs_loaded fs attrData roomData false fa Hfa)
    as (h1 & _ & _ & _ & _ & ->).
  rewrite Hany. reflexivity.
Qed.

Lemma duplicates_then_refused_record_panics_witness :
  loadRooms fs_duplicates_bad "rooms.csv" false emptyHotel = Panics NilDereference
  /\ NewHotelFromData fs_duplicates_bad "attrs.txt" "rooms.csv" false = Panics NilDereference.
Proof.
  destruct (duplicates_then_refused_record_panics fs_duplicates_bad "attrs.txt" "rooms.csv"
              (mkFile None ["sea-view"] [])
              (mkFile None [] [ReadRecord ["id"; "price"; "state"; "attributes"];
                               ReadRecord ["101"; "120"; "FREE"; "sea-view"];
                               ReadRecord ["101"; "95"; "OCCUPIED"; "smoking"];
                               ReadRecord ["102"; "abc"; "FREE"; "balcony"]])
              emptyHotel
              ["id"; "price"; "state"; "attributes"]
              ["101"; "120"; "FREE"; "sea-view"]
              ["101"; "95"; "OCCUPIED"; "smoking"]
              ["102"; "abc"; "FREE"; "balcony"]
              [] [] [] []
              (room.mkRoom Sync.new 101 120 "FREE" (room.attrs_of_entry "sea-view"))
              (room.mkRoom Sync.new 101 95 "OCCUPIED" (room.attrs_of_entry "smoking")))
    as [H1 H2].
  - reflexivity.
  - reflexivity.
  - repeat constructor; eexists; reflexivity.
  - reflexivity.
  - reflexivity.
  - reflexivity.
  - intros [r Hr]. discriminate Hr.
  - split; [exact H1 | exact (H2 eq_refl)].
Defined.

End hotel_props.

(** * Further properties of the packages *)

(** ** Dates *)
Module date_more.
Import date.
Import date_props.

Example Date_String_examples :
  Date_String (mkDate 28 12 1999) = "28th December, 1999"
  /\ Date_String (mkDate 1 1 1999) = "1st January, 1999"
  /\ Date_String (mkDate 11 3 2020) = "11st March, 2020".
Proof. repeat split; reflexivity. Qed.

Lemma mod_400_100 (y : N) : y mod 400 = 0 -> y mod 100 = 0.
Proof.
  intros H. pose proof (N.div_mod y 400 ltac:(discriminate)) as E.
  rewrite H, N.add_0_r in E.
  rewrite E. replace (400 * (y / 400)) with ((4 * (y / 400)) * 100) by lia.
  apply N.Div0.mod_mul.
Qed.

Lemma mod_100_4 (y : N) : y mod 100 = 0 -> y mod 4 = 0.
Proof.
  intros H. pose proof (N.div_mod y 100 ltac:(discriminate)) as E.
  rewrite H, N.add_0_r in E.
  rewrite E. replace (100 * (y / 100)) with ((25 * (y / 100)) * 4) by lia.
  apply N.Div0.mod_mul.
Qed.

(** X1: [isLeapYear] is the Gregorian rule: a year is leap exactly when it
    is divisible by 4 and, if divisible by 100, also by 400. *)
Theorem isLeapYear_gregorian (y : N) :
  isLeapYear y = true <-> y mod 4 = 0 /\ (y mod 100 <> 0 \/ y mod 400 = 0).
Proof.
  unfold isLeapYear.
  destruct (N.eqb_spec (y mod 400) 0) as [H400 | H400].
  - split; [intros _ | reflexivity].
    split; [apply mod_100_4, mod_400_100, H400 | right; exact H400].
  - destruct (N.eqb_spec (y mod 100) 0) as [H100 | H100].
    + split; [discriminate | intros [_ [H | H]]; contradiction].
    + destruct (N.eqb_spec (y mod 4) 0) as [H4 | H4].
      * split; [intros _; split; [exact H4 | left; exact H100] | reflexivity].
      * split; [discriminate | intros [H _]; contradiction].
Qed.

Lemma IsValid_None_calendar (y m d : N) :
  IsValid (mkDate d m y) = None -> spec_valid y m d /\ m <> 2.
Proof.
  unfold_valid. unfold spec_leap.
  destruct (isLeapYear y); case_cmp; try discriminate; intros _; lia.
Qed.

(** X2: [New] is sound: a date it returns has the fields it was given,
    passes [IsValid], is a day of the calendar (month in 1..12, day within
    the length of the month), and is never a day of February. *)
Theorem New_returns_calendar_dates (y m d : N) (dt : Date) :
  fst (New y m d) = Some dt ->
  dt = mkDate d m y /\ snd (New y m d) = None /\ IsValid dt = None
  /\ spec_valid y m d /\ m <> 2.
Proof.
  intros H. destruct (New_Some_IsValid y m d dt H) as [-> Hv].
  split; [reflexivity|]. split; [unfold New; rewrite Hv; reflexivity|].
  split; [exact Hv|]. exact (IsValid_None_calendar y m d Hv).
Qed.

Lemma New_returns_calendar_dates_witness :
  mkDate 30 4 2023 = mkDate 30 4 2023 /\ snd (New 2023 4 30) = None
  /\ IsValid (mkDate 30 4 2023) = None /\ spec_valid 2023 4 30 /\ 4 <> 2.
Proof. exact (New_returns_calendar_dates 2023 4 30 (mkDate 30 4 2023) eq_refl). Defined.

(** X3: [IsValid] looks at the day's absolute range first, then at the
    month: the day-range message is returned exactly when the day is 0 or
    above 31, whatever the month, and the month-range message exactly when
    the day is within 1..31 and the month is 0 or above 12; both carry the
    offending value. *)
Theorem IsValid_range_errors (dt : Date) (x : N) :
  (IsValid dt = Some (ErrDayRange x) <-> x = Day dt /\ (Day dt = 0 \/ 31 < Day dt))
  /\ (IsValid dt = Some (ErrMonthRange x)
      <-> x = Month dt /\ 1 <= Day dt <= 31 /\ (Month dt = 0 \/ 12 < Month dt)).
Proof.
  destruct dt as [d m y]. unfold IsValid, check_ub, is_31_day_case.
  cbn [Day Month Year]. unfold_months.
  destruct (isLeapYear y); case_cmp;
    (split; (split; [intros Herr; try discriminate Herr; injection Herr as <- | intros [-> Hcase]]));
    try (split; [reflexivity|]); try reflexivity; try lia.
Qed.

Lemma MonthToStr_in_range (m : N) :
  1 <= m <= 12 ->
  MonthToStr m = (if m =? 5 then InvalidMonth else spec_month_name m)
  /\ (m <> 5 -> MonthToStr m <> InvalidMonth).
Proof.
  intros Hr.
  destruct (month_cases m Hr) as [->|[->|[->|[->|[->|[->|[->|[->|[->|[->|[->| ->]]]]]]]]]]];
    (split; [reflexivity | intros Hne; try (exfalso; apply Hne; reflexivity);
                            vm_compute; discriminate]).
Qed.

(** The sentinel and the month names, for sharing below. *)
Lemma MonthToStr_names_aux (m1 m2 : N) :
  (MonthToStr m1 = InvalidMonth <-> m1 = 0 \/ m1 = 5 \/ 12 < m1)
  /\ (MonthToStr m1 = MonthToStr m2 -> MonthToStr m1 <> InvalidMonth -> m1 = m2).
Proof.
  assert (Hiff : forall m, MonthToStr m = InvalidMonth <-> m = 0 \/ m = 5 \/ 12 < m).
  { intros m. destruct (decide (1 <= m <= 12)) as [Hr | Hr].
    - destruct (MonthToStr_in_range m Hr) as [_ Hne]. split.
      + intros H. destruct (decide (m = 5)) as [-> | H5]; [auto|].
        destruct (Hne H5 H).
      + intros [-> | [-> | H]]; [lia | reflexivity | lia].
    - split; [intros _; lia | intros _; apply MonthToStr_outside, Hr]. }
  split; [apply Hiff|]. intros Heq Hne.
  assert (H1 : 1 <= m1 <= 12 /\ m1 <> 5).
  { rewrite Hiff in Hne. lia. }
  assert (H2 : 1 <= m2 <= 12 /\ m2 <> 5).
  { rewrite Heq, Hiff in Hne. lia. }
  destruct H1 as [Hr1 Hn1], H2 as [Hr2 Hn2].
  destruct (month_cases m1 Hr1) as [->|[->|[->|[->|[->|[->|[->|[->|[->|[->|[->| ->]]]]]]]]]]];
    try (destruct Hn1; reflexivity);
    destruct (month_cases m2 Hr2) as [->|[->|[->|[->|[->|[->|[->|[->|[->|[->|[->| ->]]]]]]]]]]];
    try (destruct Hn2; reflexivity);
    try reflexivity; vm_compute in Heq; discriminate Heq.
Qed.

(** X4: the sentinel ["INVALID_MONTH"] is returned by [MonthToStr] exactly
    for the month values 0, 5 and those above 12; apart from the sentinel,
    equal names come from equal months. *)
Theorem MonthToStr_sentinel_iff (m1 m2 : N) :
  (MonthToStr m1 = InvalidMonth <-> m1 = 0 \/ m1 = 5 \/ 12 < m1)
  /\ (MonthToStr m1 = MonthToStr m2 -> MonthToStr m1 <> InvalidMonth -> m1 = m2).
Proof. exact (MonthToStr_names_aux m1 m2). Qed.

(** *** Rendering *)

Lemma string_of_uint_digits (d : Decimal.uint) :
  all_digits (NilEmpty.string_of_uint d) = true.
Proof. induction d; cbn; auto. Qed.

Lemma fmt_uint_digits (n : N) : all_digits (fmt_uint n) = true.
Proof.
  unfold fmt_uint, NilZero.string_of_uint.
  destruct (N.to_uint n); try reflexivity; apply (string_of_uint_digits (_ _)).
Qed.

Lemma to_uint_not_Nil (n : N) : N.to_uint n <> Decimal.Nil.
Proof.
  intros H. pose proof (DecimalN.Unsigned.of_to n) as E. rewrite H in E.
  cbn in E. subst n. discriminate H.
Qed.

Lemma fmt_uint_inj (n n' : N) : fmt_uint n = fmt_uint n' -> n = n'.
Proof.
  unfold fmt_uint. intros H. apply DecimalN.Unsigned.to_uint_inj.
  assert (E : NilZero.uint_of_string (NilZero.string_of_uint (N.to_uint n))
              = NilZero.uint_of_string (NilZero.string_of_uint (N.to_uint n')))
    by (rewrite H; reflexivity).
  rewrite !NilZero.usu in E by apply to_uint_not_Nil. congruence.
Qed.

(** A run of digits followed by something else is cut in one way only. *)
Lemma digits_then_other (a b x y : string) :
  all_digits a = true -> all_digits b = true ->
  starts_without_digit x = true -> starts_without_digit y = true ->
  (a ++ x)%string = (b ++ y)%string -> a = b /\ x = y.
Proof.
  revert b. induction a as [|c a IH]; intros [|c' b] Ha Hb Hx Hy H.
  - split; [reflexivity | exact H].
  - exfalso. change (x = String c' (b ++ y)%string) in H. subst x.
    cbn in Hx, Hb. apply andb_true_iff in Hb as [Hc _]. rewrite Hc in Hx. discriminate.
  - exfalso. change (String c (a ++ x)%string = y) in H. subst y.
    cbn in Hy, Ha. apply andb_true_iff in Ha as [Hc _]. rewrite Hc in Hy. discriminate.
  - change (String c (a ++ x)%string = String c' (b ++ y)%string) in H.
    injection H as -> H. cbn in Ha, Hb.
    apply andb_true_iff in Ha as [_ Ha]. apply andb_true_iff in Hb as [_ Hb].
    destruct (IH b Ha Hb Hx Hy H) as [-> ->]. split; reflexivity.
Qed.

Lemma append_cancel_l (a x y : string) : (a ++ x)%string = (a ++ y)%string -> x = y.
Proof.
  induction a as [|c a IH]; intros H; [exact H|].
  change (String c (a ++ x)%string = String c (a ++ y)%string) in H.
  injection H as H. exact (IH H).
Qed.

Lemma ordinalExt_cases (d : N) :
  ordinalExt d = "st" \/ ordinalExt d = "nd" \/ ordinalExt d = "rd" \/ ordinalExt d = "th".
Proof. unfold ordinalExt. case_cmp; auto. Qed.

Lemma MonthToStr_cases (m : N) :
  In (MonthToStr m)
    ["January"; "February"; "March"; "April"; "June"; "July"; "August";
     "September"; "October"; "November"; "December"; "INVALID_MONTH"].
Proof. unfold MonthToStr, InvalidMonth. case_cmp; cbn; tauto. Qed.

(** Two month names followed by a comma and more text agree only when the
    names are the same. *)
Lemma month_name_then_rest (m1 m2 : N) (t1 t2 : string) :
  (MonthToStr m1 ++ ", " ++ t1)%string = (MonthToStr m2 ++ ", " ++ t2)%string ->
  MonthToStr m1 = MonthToStr m2 /\ t1 = t2.
Proof.
  pose proof (MonthToStr_cases m1) as H1. pose proof (MonthToStr_cases m2) as H2.
  destruct (MonthToStr m1) eqn:E1, (MonthToStr m2) eqn:E2; cbn in H1, H2; intros H.
  all: repeat match goal with
         | Hd : _ \/ _ |- _ => destruct Hd as [Hd | Hd]
         | Hd : False |- _ => destruct Hd
         end; try discriminate.
  all: match goal with
       | Ha : ?n1 = _, Hb : ?n2 = _ |- _ =>
           rewrite <- Ha, <- Hb in H |- *;
           cbv beta iota delta [String.append] in H;
           first [ discriminate H
                 | split; [reflexivity | congruence] ]
       end.
Qed.

(** X5: the text [String] renders determines the day, the year and the
    month name of a date; for dates accepted by [New] it determines the
    date: two accepted dates with the same text are the same date. *)
Theorem Date_String_unambiguous (dt1 dt2 : Date) :
  Date_String dt1 = Date_String dt2 ->
  (Day dt1 = Day dt2 /\ Year dt1 = Year dt2
   /\ MonthToStr (Month dt1) = MonthToStr (Month dt2))
  /\ (IsValid dt1 = None -> IsValid dt2 = None -> dt1 = dt2).
Proof.
  destruct dt1 as [d1 m1 y1], dt2 as [d2 m2 y2]. unfold Date_String. cbn [Day Month Year].
  intros H.
  assert (Hparts : d1 = d2 /\ y1 = y2 /\ MonthToStr m1 = MonthToStr m2).
  { apply digits_then_other in H as [Hd H]; try apply fmt_uint_digits.
    - apply fmt_uint_inj in Hd as ->.
      apply append_cancel_l in H.
      change (" " ++ ?t)%string with (String " " t) in H. injection H as H.
      apply month_name_then_rest in H as [Hm Hy].
      apply fmt_uint_inj in Hy. auto.
    - destruct (ordinalExt_cases d1) as [-> | [-> | [-> | ->]]]; reflexivity.
    - destruct (ordinalExt_cases d2) as [-> | [-> | [-> | ->]]]; reflexivity. }
  split; [exact Hparts|]. destruct Hparts as (-> & -> & Hm). intros Hv1 Hv2.
  apply IsValid_None_calendar in Hv1 as [[Hr1 _] _].
  apply IsValid_None_calendar in Hv2 as [[Hr2 _] _].
  destruct (decide (m1 = 5)) as [-> | H5].
  - destruct (decide (m2 = 5)) as [-> | H5']; [reflexivity|].
    exfalso. apply (proj2 (MonthToStr_in_range m2 Hr2) H5'). rewrite <- Hm. reflexivity.
  - assert (m1 = m2) as ->; [|reflexivity].
    apply (proj2 (MonthToStr_names_aux m1 m2)); [exact Hm|].
    exact (proj2 (MonthToStr_in_range m1 Hr1) H5).
Qed.

Lemma Date_String_unambiguous_witness :
  (Day (mkDate 28 12 1999) = Day (mkDate 28 12 1999)
   /\ Year (mkDate 28 12 1999) = Year (mkDate 28 12 1999)
   /\ MonthToStr (Month (mkDate 28 12 1999)) = MonthToStr (Month (mkDate 28 12 1999)))
  /\ (IsValid (mkDate 28 12 1999) = None -> IsValid (mkDate 28 12 1999) = None ->
      mkDate 28 12 1999 = mkDate 28 12 1999).
Proof. exact (Date_String_unambiguous (mkDate 28 12 1999) (mkDate 28 12 1999) eq_refl). Defined.

(** X6: the text of a date accepted by [New] is the day in decimal, the
    ordinal ending, a space, the month, a comma and a space, and the year in
    decimal, where the month is its English name for every month but May,
    which is rendered as ["INVALID_MONTH"]. *)
Theorem Date_String_of_accepted (y m d : N) (dt : Date) :
  fst (New y m d) = Some dt ->
  exists name,
    Date_String dt
    = (fmt_uint d ++ ordinalExt d ++ " " ++ name ++ ", " ++ fmt_uint y)%string
    /\ (m <> 5 -> name = spec_month_name m /\ name <> InvalidMonth)
    /\ (m = 5 -> name = InvalidMonth).
Proof.
  intros H. destruct (New_Some_IsValid y m d dt H) as [-> Hv].
  apply IsValid_None_calendar in Hv as [[Hr _] _].
  exists (MonthToStr m). split; [reflexivity|]. split.
  - intros H5. split; [apply MonthToStr_except_May, H5|].
    exact (proj2 (MonthToStr_in_range m Hr) H5).
  - intros ->. reflexivity.
Qed.

Lemma Date_String_of_accepted_witness :
  exists name,
    Date_String (mkDate 31 5 2023)
    = (fmt_uint 31 ++ ordinalExt 31 ++ " " ++ name ++ ", " ++ fmt_uint 2023)%string
    /\ (5 <> 5 -> name = spec_month_name 5 /\ name <> InvalidMonth)
    /\ (5 = 5 -> name = InvalidMonth).
Proof. exact (Date_String_of_accepted 2023 5 31 (mkDate 31 5 2023) eq_refl). Defined.

End date_more.

(** ** Rooms *)
Module room_more.
Import room.
Import room_props.

Lemma state_of_entry_valid (s : string) :
  valid_state s -> state_of_entry s = Some s.
Proof. intros [-> | [-> | ->]]; reflexivity. Qed.

(** X7: [NewRoomFromRecord] returns a room, and no error, exactly for the
    records of four entries whose first two entries are decimal numbers
    below 2^64 and whose third entry is OCCUPIED, UNAVAILABLE or FREE; the
    room has these two numbers as id and price, that state, the pieces of
    the fourth entry as attributes, and a free mutex. *)
Theorem NewRoomFromRecord_accepts_iff
    (record : list string) (va : list Attribute) (r : Room) :
  NewRoomFromRecord record va = (Some r, None)
  <-> exists eID ePrice eState eAttrs,
        record = [eID; ePrice; eState; eAttrs]
        /\ Strconv.ParseUint eID = inr (id r)
        /\ Strconv.ParseUint ePrice = inr (price r)
        /\ valid_state eState /\ state r = eState
        /\ attrs r = attrs_of_entry eAttrs
        /\ mu r = Sync.new.
Proof.
  split.
  - intros H.
    destruct (NewRoomFromRecord_Some record va r) as
      (eID & ePrice & eState & eAttrs & id64 & price64 & st & -> & Hid & Hp & Hst & -> & _).
    { rewrite H. reflexivity. }
    apply state_of_entry_Some in Hst as [-> Hst].
    exists eID, ePrice, eState, eAttrs. cbn.
    rewrite (ParseUint_to_uint _ _ Hid), (ParseUint_to_uint _ _ Hp). auto 10.
  - intros (eID & ePrice & eState & eAttrs & -> & Hid & Hp & Hst & Hs & Ha & Hm).
    cbn. rewrite Hid, Hp, (state_of_entry_valid _ Hst).
    rewrite (ParseUint_to_uint _ _ Hid), (ParseUint_to_uint _ _ Hp).
    rewrite <- Hs, <- Ha, <- Hm, room_eta. reflexivity.
Qed.

Lemma parse_digits_leading_zero (s : string) :
  Strconv.parse_digits (String "0" s) 0 = Strconv.parse_digits s 0.
Proof. reflexivity. Qed.

(** X8: room numbers and prices are read as numbers: a zero written in
    front of a non-empty id or price entry changes neither the room that
    [NewRoomFromRecord] returns nor whether it returns one. *)
Theorem NewRoomFromRecord_leading_zero
    (eID ePrice eState eAttrs : string) (va : list Attribute) :
  eID <> "" -> ePrice <> "" ->
  fst (NewRoomFromRecord [String "0" eID; ePrice; eState; eAttrs] va)
  = fst (NewRoomFromRecord [eID; ePrice; eState; eAttrs] va)
  /\ fst (NewRoomFromRecord [eID; String "0" ePrice; eState; eAttrs] va)
     = fst (NewRoomFromRecord [eID; ePrice; eState; eAttrs] va).
Proof.
  intros Hid Hp.
  assert (Hz : forall s, s <> "" -> Strconv.ParseUint (String "0" s) = Strconv.ParseUint s).
  { intros [|c s] Hs; [destruct Hs; reflexivity | reflexivity]. }
  cbn [NewRoomFromRecord]. rewrite (Hz eID Hid), (Hz ePrice Hp).
  split; destruct (Strconv.ParseUint eID); try reflexivity;
    destruct (Strconv.ParseUint ePrice); try reflexivity;
    destruct (state_of_entry eState); reflexivity.
Qed.

Lemma NewRoomFromRecord_leading_zero_witness :
  fst (NewRoomFromRecord ["0101"; "95"; "FREE"; "smoking"] [])
  = fst (NewRoomFromRecord ["101"; "95"; "FREE"; "smoking"] [])
  /\ fst (NewRoomFromRecord ["101"; "095"; "FREE"; "smoking"] [])
     = fst (NewRoomFromRecord ["101"; "95"; "FREE"; "smoking"] []).
Proof.
  apply (NewRoomFromRecord_leading_zero "101" "95" "FREE" "smoking" []); discriminate.
Defined.

Lemma prefix_empty (s : string) : String.prefix "" s = true.
Proof. destruct s; reflexivity. Qed.

Lemma split_from_no_comma (s cur : string) :
  no_comma s = true -> Strings.split_from "," 0 cur s = [(cur ++ s)%string].
Proof.
  revert cur. induction s as [|c s IH]; intros cur Hs.
  - cbn [Strings.split_from]. rewrite hotel_props.append_empty_r. reflexivity.
  - cbn [no_comma] in Hs. apply andb_true_iff in Hs as [Hc Hs].
    cbn [Strings.split_from]. rewrite hotel_props.prefix_cons.
    destruct (ascii_dec "," c) as [<- | _].
    + rewrite Ascii.eqb_refl in Hc. discriminate.
    + rewrite (IH _ Hs), hotel_props.append_snoc. reflexivity.
Qed.

Lemma attrs_of_entry_not_empty (entry : string) : attrs_of_entry entry <> ∅.
Proof.
  unfold Strings.Split. intros H.
  destruct (Strings.Split entry ",") as [|x l] eqn:E.
  - exact (hotel_props.split_from_not_nil _ _ _ _ E).
  - assert (Hx : x ∈ attrs_of_entry entry).
    { apply elem_of_attrs_of_entry. rewrite E. constructor. }
    rewrite H in Hx. exact (not_elem_of_empty x Hx).
Qed.

(** X9: the attribute set of a room parsed from a record is never empty:
    an attribute entry without a comma, the empty entry included, gives the
    set with that entry as its one member. *)
Theorem parsed_room_attrs_not_empty
    (record : list string) (va : list Attribute) (r : Room) :
  fst (NewRoomFromRecord record va) = Some r ->
  attrs r <> ∅
  /\ (forall eAttrs, record !! 3%nat = Some eAttrs -> no_comma eAttrs = true ->
        attrs r = {[eAttrs]}).
Proof.
  intros H.
  destruct (NewRoomFromRecord_Some record va r H) as
    (eID & ePrice & eState & eAttrs & id64 & price64 & st & -> & _ & _ & _ & -> & _).
  cbn [attrs]. split; [apply attrs_of_entry_not_empty|].
  intros ? [= <-] Hc. unfold attrs_of_entry, Strings.Split.
  rewrite (split_from_no_comma _ _ Hc). cbn. apply (right_id_L ∅ (∪)).
Qed.

Lemma parsed_room_attrs_not_empty_witness :
  attrs (mkRoom Sync.new 7 60 "FREE" (attrs_of_entry "")) <> ∅
  /\ (forall eAttrs, ["7"; "60"; "FREE"; ""] !! 3%nat = Some eAttrs ->
        no_comma eAttrs = true ->
        attrs (mkRoom Sync.new 7 60 "FREE" (attrs_of_entry "")) = {[eAttrs]}).
Proof.
  exact (parsed_room_attrs_not_empty ["7"; "60"; "FREE"; ""] [] _ eq_refl).
Defined.

(** X10: a room made by [NewRoom] has no attribute: [Satisfies] returns
    true on it for the empty request only. *)
Theorem NewRoom_satisfies_only_empty (n : Number) (want : list Attribute) :
  exists b r', Satisfies want (NewRoom n) = Returns (b, r')
    /\ (b = true <-> want = []).
Proof.
  eexists _, _. rewrite (Satisfies_no_writer want (NewRoom n) eq_refl).
  split; [reflexivity|]. rewrite satisfies_loop_spec. cbn [attrs NewRoom]. split.
  - intros H. destruct want as [|x want]; [reflexivity|].
    exfalso. apply (not_elem_of_empty (C:=gset Attribute) x). apply H. constructor.
  - intros -> a Ha. inversion Ha.
Qed.

(** X11: what [AddAttribute] has added, [Satisfies] finds: on a room with
    a free mutex, after [AddAttribute a] a request is satisfied exactly when
    each of its attributes is [a] or was in the set before. *)
Theorem Satisfies_after_AddAttribute (a : Attribute) (want : list Attribute) (r : Room) :
  Sync.unlocked (mu r) ->
  exists r1 r2 b,
    AddAttribute a r = Returns r1
    /\ Satisfies want r1 = Returns (b, r2)
    /\ (b = true <-> forall x, x ∈ want -> x = a \/ x ∈ attrs r).
Proof.
  intros Hu. eexists _, _, _. split; [apply (AddAttribute_unlocked a r Hu)|].
  split; [apply Satisfies_no_writer; exact (proj1 Hu)|].
  rewrite satisfies_loop_spec. cbn [attrs].
  split; intros H x Hx; specialize (H x Hx).
  - apply elem_of_union in H as [H | H]; [|right; exact H].
    left. apply elem_of_singleton in H. exact H.
  - apply elem_of_union. destruct H as [-> | H]; [|right; exact H].
    left. apply elem_of_singleton. reflexivity.
Qed.

Lemma Satisfies_after_AddAttribute_witness :
  exists r1 r2 b,
    AddAttribute "balcony" (NewRoom 4) = Returns r1
    /\ Satisfies ["balcony"] r1 = Returns (b, r2)
    /\ (b = true <-> forall x, x ∈ ["balcony"] -> x = "balcony" \/ x ∈ attrs (NewRoom 4)).
Proof.
  exact (Satisfies_after_AddAttribute "balcony" ["balcony"] (NewRoom 4)
           (conj eq_refl eq_refl)).
Defined.

(** X12: the order of two [AddAttribute] calls does not matter: both
    orders end in the same room, or both block. *)
Theorem AddAttribute_comm (a b : Attribute) (r : Room) :
  (AddAttribute a r ≫= AddAttribute b) = (AddAttribute b r ≫= AddAttribute a).
Proof.
  destruct (decide (Sync.writer (mu r) = false /\ Sync.readers (mu r) = 0%nat))
    as [Hu | Hn].
  - rewrite (AddAttribute_unlocked a r Hu), (AddAttribute_unlocked b r Hu).
    cbn [mbind outcome_bind].
    rewrite !AddAttribute_unlocked by exact Hu. cbn [mu id price state attrs].
    rewrite !(assoc_L (∪)), (comm_L (∪) {[b]} {[a]}). reflexivity.
  - rewrite (AddAttribute_locked a r Hn), (AddAttribute_locked b r Hn). reflexivity.
Qed.

(** A run that returns has taken every step. *)
Lemma run_cons_Returns (op : Op) (ops : list Op) (r r' : Room) (os : list Obs) :
  run (op :: ops) r = (os, Returns r') ->
  exists o r1 os1, step op r = Returns (o, r1) /\ run ops r1 = (os1, Returns r')
                   /\ os = o :: os1.
Proof.
  cbn [run]. destruct (step op r) as [[o r1]| |]; try discriminate.
  destruct (run ops r1) as [os1 fin] eqn:E. intros [= <- ->]. eauto 6.
Qed.

Lemma run_app_Returns (ops1 ops2 : list Op) (r r' : Room) :
  snd (run (ops1 ++ ops2) r) = Returns r' ->
  exists r1, snd (run ops1 r) = Returns r1 /\ snd (run ops2 r1) = Returns r'.
Proof.
  revert r. induction ops1 as [|op ops1 IH]; intros r.
  - cbn. eauto.
  - cbn [app run]. destruct (step op r) as [[o r1]| |]; cbn; try discriminate.
    specialize (IH r1).
    destruct (run (ops1 ++ ops2) r1) as [os fin]. destruct (run ops1 r1) as [os1 fin1].
    cbn in *. exact IH.
Qed.

Lemma step_readers (op : Op) (r r' : Room) (o : Obs) :
  step op r = Returns (o, r') ->
  Sync.readers (mu r') =
    (Sync.readers (mu r) + match op with OpSatisfies _ => 1 | _ => 0 end)%nat
  /\ attrs r' = attrs r ∪ match op with OpAddAttribute a => {[a]} | _ => ∅ end.
Proof.
  destruct op as [|a|want]; cbn [step].
  - intros [= _ <-]. rewrite Nat.add_0_r, (right_id_L ∅ (∪)). auto.
  - destruct (AddAttribute a r) as [r1| |] eqn:E; cbn; try discriminate.
    intros [= _ <-]. apply AddAttribute_inv in E as [_ ->]. cbn.
    rewrite Nat.add_0_r, (comm_L (∪)). auto.
  - unfold Satisfies, Sync.RLock. destruct (Sync.writer (mu r)); cbn; [discriminate|].
    intros [= _ <-]. cbn. rewrite Nat.add_1_r, (right_id_L ∅ (∪)). auto.
Qed.

Lemma run_readers_attrs (ops : list Op) (r r' : Room) :
  snd (run ops r) = Returns r' ->
  Sync.readers (mu r') = (Sync.readers (mu r) + count_satisfies ops)%nat
  /\ attrs r' = attrs r ∪ added_attrs ops.
Proof.
  revert r. induction ops as [|op ops IH]; intros r.
  - cbn. intros [= <-]. rewrite Nat.add_0_r, (right_id_L ∅ (∪)). auto.
  - cbn [run]. destruct (step op r) as [[o r1]| |] eqn:E; cbn; try discriminate.
    destruct (run ops r1) as [os fin] eqn:E1. cbn. intros ->.
    destruct (IH r1) as [Hr Ha]; [rewrite E1; reflexivity|].
    destruct (step_readers op r r1 o E) as [Hr1 Ha1].
    rewrite Hr, Ha, Hr1, Ha1. destruct op; cbn [count_satisfies added_attrs]; split;
      try lia; rewrite <- ?(assoc_L (∪)), ?(left_id_L ∅ (∪)); reflexivity.
Qed.

(** X13: [Satisfies] never gives its read lock back: when a run of
    operations returns, the room's mutex has as many more read locks
    outstanding as the run has [Satisfies] calls. *)
Theorem run_counts_read_locks (ops : list Op) (r r' : Room) (os : list Obs) :
  run ops r = (os, Returns r') ->
  Sync.readers (mu r') = (Sync.readers (mu r) + count_satisfies ops)%nat.
Proof.
  intros H. apply (run_readers_attrs ops r r'). rewrite H. reflexivity.
Qed.

Lemma run_counts_read_locks_witness :
  Sync.readers (mu (mkRoom (Sync.mkRWMutex false 2) 9 0 "" {["quiet"]})) =
    Nat.add (Sync.readers (mu (NewRoom 9)))
      (count_satisfies [OpAddAttribute "quiet"; OpSatisfies ["quiet"]; OpID; OpSatisfies []]).
Proof.
  apply (run_counts_read_locks
           [OpAddAttribute "quiet"; OpSatisfies ["quiet"]; OpID; OpSatisfies []]
           (NewRoom 9) _ [ObsAdded; ObsSatisfies true; ObsID 9; ObsSatisfies true]).
  vm_compute. reflexivity.
Defined.

(** X14: once [Satisfies] has been called on a room, no later
    [AddAttribute] on it returns: a run with an [AddAttribute] somewhere
    after a [Satisfies] never comes to its end. *)
Theorem AddAttribute_after_Satisfies_never_returns
    (before between after : list Op) (want : list Attribute) (a : Attribute)
    (r r' : Room) :
  snd (run (before ++ OpSatisfies want :: between ++ OpAddAttribute a :: after) r)
  <> Returns r'.
Proof.
  intros H.
  apply run_app_Returns in H as (r1 & _ & H).
  change (OpSatisfies want :: between ++ OpAddAttribute a :: after)
    with ([OpSatisfies want] ++ between ++ OpAddAttribute a :: after)%list in H.
  apply run_app_Returns in H as (r2 & H12 & H).
  apply run_app_Returns in H as (r3 & H23 & H).
  apply run_readers_attrs in H12 as [H12 _].
  apply run_readers_attrs in H23 as [H23 _].
  cbn [run] in H. destruct (step (OpAddAttribute a) r3) as [[o r4]| |] eqn:E;
    try discriminate H.
  cbn [step] in E. destruct (AddAttribute a r3) as [r5| |] eqn:E5; try discriminate E.
  apply AddAttribute_inv in E5 as [[_ Hr] _].
  cbn [count_satisfies] in H12. lia.
Qed.

(** X15: attributes are only ever added: when a run of operations
    returns, the attribute set of the room is the set it started with
    together with the attributes of the run's [AddAttribute] calls, so a
    request that the room satisfied before the run is satisfied after it. *)
Theorem run_adds_attributes (ops : list Op) (r r' : Room) (os : list Obs) :
  run ops r = (os, Returns r') ->
  attrs r' = attrs r ∪ added_attrs ops
  /\ (forall want r1 r2 b,
        Satisfies want r = Returns (true, r1) ->
        Satisfies want r' = Returns (b, r2) -> b = true).
Proof.
  intros H.
  assert (Ha : attrs r' = attrs r ∪ added_attrs ops).
  { apply (run_readers_attrs ops r r'). rewrite H. reflexivity. }
  split; [exact Ha|]. intros want r1 r2 b Hs Hs'.
  apply Satisfies_inv in Hs as [Hs _]. apply Satisfies_inv in Hs' as [-> _].
  symmetry in Hs. rewrite satisfies_loop_spec in Hs |- *. intros x Hx. rewrite Ha.
  apply elem_of_union_l. exact (Hs x Hx).
Qed.

Lemma run_adds_attributes_witness :
  attrs (mkRoom Sync.new 9 0 "" ({["view"]} ∪ ({["quiet"]} ∪ ∅)))
  = attrs (NewRoom 9) ∪ added_attrs [OpAddAttribute "quiet"; OpID; OpAddAttribute "view"].
Proof.
  apply (run_adds_attributes [OpAddAttribute "quiet"; OpID; OpAddAttribute "view"]
           (NewRoom 9) _ [ObsAdded; ObsID 9; ObsAdded]).
  reflexivity.
Defined.

(** [ID] reports the same number all along a run. *)
Lemma run_ObsID (ops : list Op) (r : Room) (n : Number) :
  ObsID n ∈ fst (run ops r) -> n = id r.
Proof.
  revert r. induction ops as [|op ops IH]; intros r; cbn [run].
  - cbn. intros H. inversion H.
  - destruct (step op r) as [[o r1]| |] eqn:E; cbn; try (intros H; inversion H; fail).
    destruct (run ops r1) as [os fin] eqn:E1. cbn.
    destruct (step_preserves op r r1 o E) as [Hid _].
    intros H. apply elem_of_cons in H as [H | H].
    + subst o. destruct op as [|a|want]; cbn [step] in E.
      * cbn in E. injection E as Hn _. symmetry. exact Hn.
      * destruct (AddAttribute a r); cbn in E; discriminate E.
      * destruct (Satisfies want r) as [[b r2]| |]; cbn in E; discriminate E.
    + rewrite <- Hid. apply IH. rewrite E1. exact H.
Qed.

(** X16: the room number never changes: every [ID] call of a run, whether
    the run returns or blocks later, reports the number the room had at the
    start, and a run that returns leaves it (and the price) unchanged. *)
Theorem ID_is_constant (ops : list Op) (r : Room) :
  (forall n, ObsID n ∈ fst (run ops r) -> n = id r)
  /\ (forall r', snd (run ops r) = Returns r' -> ID r' = ID r /\ price r' = price r).
Proof.
  split; [intros n; apply run_ObsID|].
  intros r' H. destruct (run ops r) as [os fin] eqn:E. cbn in H. subst fin.
  apply run_preserves in E. unfold ID. tauto.
Qed.

(** X17: [Satisfies] looks at the request as a set: two requests with the
    same members, in any order and with any repetitions, have the same
    outcome, and a request put together from two is satisfied exactly when
    both are. *)
Theorem Satisfies_request_as_set (want1 want2 : list Attribute) (r : Room) :
  ((forall x, x ∈ want1 <-> x ∈ want2) -> Satisfies want1 r = Satisfies want2 r)
  /\ satisfies_loop (attrs r) (want1 ++ want2)
     = satisfies_loop (attrs r) want1 && satisfies_loop (attrs r) want2.
Proof.
  split.
  - intros Heq. unfold Satisfies. destruct (Sync.RLock (mu r)); cbn; try reflexivity.
    assert (E : satisfies_loop (attrs r) want1 = satisfies_loop (attrs r) want2);
      [|rewrite E; reflexivity].
    apply eq_true_iff_eq. rewrite !satisfies_loop_spec.
    split; intros H x Hx; apply H, Heq, Hx.
  - apply eq_true_iff_eq. rewrite andb_true_iff, !satisfies_loop_spec. split.
    + intros H. split; intros x Hx; apply H, elem_of_app; auto.
    + intros [H1 H2] x Hx. apply elem_of_app in Hx as [Hx | Hx]; auto.
Qed.

End room_more.

(** ** The registry *)
Module hotel_more.
Import hotel.
Import hotel_props.

Lemma hotel_eta (h : Hotel) :
  mkHotel (mu h) (numRooms h) (rooms h) (roomAttrs h) = h.
Proof. destruct h; reflexivity. Qed.

Lemma Lock_not_unlocked (m : Sync.RWMutex) :
  ~ Sync.unlocked m -> Sync.Lock m = Blocks.
Proof.
  intros Hn. unfold Sync.Lock.
  destruct (Sync.writer m) eqn:Hw; [reflexivity|].
  destruct (Sync.readers m) eqn:Hr; [|reflexivity].
  destruct Hn. split; assumption.
Qed.

Lemma loadAttributes_ok_inv (fs : FileSystem) (attrData : string) (h h' : Hotel) :
  loadAttributes fs attrData h = Returns (h', None) ->
  exists f, fs attrData = Some f /\ Sync.unlocked (mu h)
    /\ h' = mkHotel (mu h) (numRooms h) (rooms h)
              (roomAttrs h ++ List.filter kept (List.map first_piece (scan_lines f)))%list.
Proof.
  intros H. destruct (fs attrData) as [f|] eqn:Hf.
  - exists f. split; [reflexivity|].
    destruct (decide (Sync.writer (mu h) = false /\ Sync.readers (mu h) = 0%nat))
      as [Hu | Hn].
    + rewrite (loadAttributes_spec fs attrData f h Hf Hu) in H.
      injection H as <-. auto.
    + unfold loadAttributes in H. rewrite Hf, (Lock_not_unlocked _ Hn) in H. discriminate H.
  - rewrite (loadAttributes_open_fails fs attrData h Hf) in H. discriminate H.
Qed.

Lemma kept_filter (l : list string) :
  Forall (fun x => x <> "" /\ x <> "#") (List.filter kept l).
Proof.
  induction l as [|x l IH]; cbn; [constructor|].
  destruct (kept x) eqn:E; [|exact IH]. constructor; [|exact IH].
  unfold kept in E. apply negb_true_iff, orb_false_iff in E as [E1 E2].
  split; intros ->; discriminate.
Qed.

(** X18: [loadAttributes] only appends: when it returns without error, the
    vocabulary is the old one followed by the kept first pieces of the
    file's lines in file order, none of which is empty or ["#"]; the rooms,
    the room count and the mutex are as before. *)
Theorem loadAttributes_appends (fs : FileSystem) (attrData : string) (h h' : Hotel) :
  loadAttributes fs attrData h = Returns (h', None) ->
  exists f new,
    fs attrData = Some f
    /\ new = List.filter kept (List.map first_piece (scan_lines f))
    /\ roomAttrs h' = (roomAttrs h ++ new)%list
    /\ Forall (fun x => x <> "" /\ x <> "#") new
    /\ rooms h' = rooms h /\ numRooms h' = numRooms h /\ mu h' = mu h.
Proof.
  intros H. destruct (loadAttributes_ok_inv fs attrData h h' H) as (f & Hf & _ & ->).
  exists f, (List.filter kept (List.map first_piece (scan_lines f))).
  cbn. split; [exact Hf|]. split; [reflexivity|]. split; [reflexivity|].
  split; [apply kept_filter|]. auto.
Qed.

Lemma loadAttributes_appends_witness :
  exists f new,
    fs_failing "attrs.txt" = Some f
    /\ new = List.filter kept (List.map first_piece (scan_lines f))
    /\ roomAttrs (mkHotel Sync.new 0 ∅ ["pool"; "sea-view"]) = (["pool"] ++ new)%list
    /\ Forall (fun x => x <> "" /\ x <> "#") new
    /\ rooms (mkHotel Sync.new 0 ∅ ["pool"; "sea-view"]) = rooms (mkHotel Sync.new 0 ∅ ["pool"])
    /\ numRooms (mkHotel Sync.new 0 ∅ ["pool"; "sea-view"]) = numRooms (mkHotel Sync.new 0 ∅ ["pool"])
    /\ mu (mkHotel Sync.new 0 ∅ ["pool"; "sea-view"]) = mu (mkHotel Sync.new 0 ∅ ["pool"]).
Proof.
  exact (loadAttributes_appends fs_failing "attrs.txt" (mkHotel Sync.new 0 ∅ ["pool"])
           (mkHotel Sync.new 0 ∅ ["pool"; "sea-view"]) eq_refl).
Defined.

Lemma prefix_refl_append (p s : string) : String.prefix p (p ++ s)%string = true.
Proof.
  induction p as [|c p IH]; [apply room_more.prefix_empty|].
  change (String.prefix (String c p) (String c (p ++ s)%string) = true).
  rewrite prefix_cons. destruct (ascii_dec c c) as [_ | Hne]; [exact IH | destruct Hne; reflexivity].
Qed.

Lemma split_from_cut (a b cur : string) :
  no_tab a = true ->
  exists rest,
    Strings.split_from space_tab 0 cur (a ++ space_tab ++ b)%string
    = (cur ++ a)%string :: rest.
Proof.
  revert cur. induction a as [|c a IH]; intros cur Ha.
  - change ("" ++ space_tab ++ b)%string with (space_tab ++ b)%string.
    unfold space_tab at 2.
    change (String " " (String (ascii_of_N 9) "") ++ b)%string
      with (String " " (String (ascii_of_N 9) b)).
    cbn [Strings.split_from].
    change (String " " (String (ascii_of_N 9) b)) with (space_tab ++ b)%string.
    rewrite prefix_refl_append, append_empty_r. eauto.
  - change (String c a ++ space_tab ++ b)%string
      with (String c (a ++ space_tab ++ b)%string).
    cbn [Strings.split_from].
    assert (Hp : String.prefix space_tab (String c (a ++ space_tab ++ b)%string) = false).
    { unfold space_tab at 1. rewrite prefix_cons.
      destruct (ascii_dec " " c) as [_|_]; [|reflexivity].
      cbn [no_tab] in Ha. apply andb_true_iff in Ha as [_ Ha].
      destruct a as [|c' a].
      - reflexivity.
      - change (String c' a ++ space_tab ++ b)%string
          with (String c' (a ++ space_tab ++ b)%string).
        rewrite prefix_cons. cbn [no_tab] in Ha. apply andb_true_iff in Ha as [Hc _].
        destruct (ascii_dec (ascii_of_N 9) c') as [<- | _]; [|reflexivity].
        rewrite Ascii.eqb_refl in Hc. discriminate. }
    rewrite Hp. cbn [no_tab] in Ha. apply andb_true_iff in Ha as [_ Ha].
    destruct (IH (cur ++ String c "")%string Ha) as [rest ->].
    rewrite append_snoc. eauto.
Qed.

(** X19: the attribute of a line is the text before its first space
    followed by a tab: a line made of a text without tab, then a space and a
    tab, then anything, gives that text; a line without tab is taken
    whole. *)
Theorem first_piece_cut (a b : string) :
  no_tab a = true ->
  first_piece (a ++ space_tab ++ b) = a /\ first_piece a = a.
Proof.
  intros Ha. split; [|apply first_piece_no_tab, Ha].
  unfold first_piece, Strings.Split.
  destruct (split_from_cut a b "" Ha) as [rest ->]. reflexivity.
Qed.

Lemma first_piece_cut_witness :
  first_piece ("sea-view" ++ space_tab ++ "rooms facing the sea") = "sea-view"
  /\ first_piece "sea-view" = "sea-view".
Proof. exact (first_piece_cut "sea-view" "rooms facing the sea" eq_refl). Defined.

(** *** Strict and non-strict loads *)

Lemma read_loop_strict_returns (reads : list ReadResult) (initial : bool)
    (va : list room.Attribute) (acc : gmap N room.Room) :
  exists res, read_loop reads initial va true acc = Returns res.
Proof.
  revert initial acc. induction reads as [|[record|msg] rest IH]; intros initial acc.
  - eexists. reflexivity.
  - cbn [read_loop]. destruct initial; [apply IH|].
    destruct (room_props.NewRoomFromRecord_shape record va) as [[r Hr] | [e He]].
    + rewrite Hr. apply IH.
    + rewrite He. eexists. reflexivity.
  - eexists. reflexivity.
Qed.

Lemma loadRooms_full_inv (fs : FileSystem) (roomData : string) (strict : bool)
    (h h' : Hotel) :
  loadRooms fs roomData strict h = Returns (h', None) ->
  exists f parsed,
    fs roomData = Some f
    /\ read_loop (csv_reads f) true (roomAttrs h) strict ∅ = Returns (parsed, None)
    /\ Sync.unlocked (mu h)
    /\ h' = mkHotel (mu h) (numRooms h) (parsed ∪ rooms h) (roomAttrs h).
Proof.
  intros H. destruct (loadRooms_ok_inv _ _ _ _ _ H) as (f & parsed & Hf & Hl & _).
  exists f, parsed. split; [exact Hf|]. split; [exact Hl|].
  destruct (decide (Sync.writer (mu h) = false /\ Sync.readers (mu h) = 0%nat))
    as [Hu | Hn].
  - split; [exact Hu|]. rewrite (loadRooms_spec fs roomData strict f h Hf Hu), Hl in H.
    injection H as <-. reflexivity.
  - unfold loadRooms in H. rewrite Hf, Hl in H. cbn in H.
    rewrite (Lock_not_unlocked _ Hn) in H. discriminate H.
Qed.

(** X20: in strict mode nothing panics: [loadRooms] never does, and
    [NewHotelFromData] always returns, either a registry and no error or an
    error and no registry. *)
Theorem strict_load_never_panics (fs : FileSystem) (attrData roomData : string) :
  (forall h p, loadRooms fs roomData true h <> Panics p)
  /\ (exists ho oe,
        NewHotelFromData fs attrData roomData true = Returns (ho, oe)
        /\ (is_Some ho <-> oe = None)).
Proof.
  assert (Hnp : forall h p, loadRooms fs roomData true h <> Panics p).
  { intros h p. unfold loadRooms. destruct (fs roomData) as [f|]; [|discriminate].
    match goal with
    | |- context [read_loop ?a ?b ?c true ?d] =>
        destruct (read_loop_strict_returns a b c d) as [[parsed [e|]] ->]
    end; cbn; [discriminate|].
    unfold Sync.Lock. destruct (_ || _); cbn; discriminate. }
  split; [exact Hnp|].
  destruct (fs attrData) as [fa|] eqn:Hfa.
  - destruct (NewHotelFromData_attrs_loaded fs attrData roomData true fa Hfa)
      as (h1 & _ & _ & Hmu & _ & ->).
    destruct (loadRooms fs roomData true h1) as [[h2 [e|]]| |] eqn:E.
    + eexists _, _. split; [reflexivity|]. split; [intros [? [=]] | discriminate].
    + eexists _, _. split; [reflexivity|]. split; [reflexivity | eauto].
    + destruct (Hnp h1 p E).
    + exfalso. unfold loadRooms in E. destruct (fs roomData) as [f|]; [|discriminate E].
      match type of E with
      | context [read_loop ?a ?b ?c true ?d] =>
          destruct (read_loop_strict_returns a b c d) as [[parsed [e|]] Hres];
          rewrite Hres in E
      end; cbn in E; try discriminate E.
      rewrite Hmu in E. discriminate E.
  - unfold NewHotelFromData. rewrite (loadAttributes_open_fails fs attrData _ Hfa).
    eexists _, _. split; [reflexivity|]. split; [intros [? [=]] | discriminate].
Qed.

Lemma read_loop_nonstrict_panics (reads : list ReadResult)
    (va : list room.Attribute) (acc : gmap N room.Room) (p : Panic) :
  read_loop reads false va false acc = Panics p ->
  p = NilDereference
  /\ exists accepted bad rest,
       reads = (List.map ReadRecord accepted ++ ReadRecord bad :: rest)%list
       /\ Forall (well_formed va) accepted /\ ~ well_formed va bad.
Proof.
  revert acc. induction reads as [|[record|msg] rest IH]; intros acc; try discriminate.
  cbn [read_loop].
  destruct (room_props.NewRoomFromRecord_shape record va) as [[r Hr] | [e He]].
  - rewrite Hr. intros H. destruct (IH _ H) as (-> & accepted & bad & rest' & -> & Hall & Hbad).
    split; [reflexivity|]. exists (record :: accepted), bad, rest'.
    split; [reflexivity|]. split; [|exact Hbad].
    constructor; [exists r; rewrite Hr; reflexivity | exact Hall].
  - rewrite He. intros [= <-]. split; [reflexivity|].
    exists [], record, rest. split; [reflexivity|]. split; [constructor|].
    intros [r Hr]. rewrite He in Hr. discriminate Hr.
Qed.

Lemma read_loop_nonstrict_no_parse_error (reads : list ReadResult) (initial : bool)
    (va : list room.Attribute) (acc parsed : gmap N room.Room) (e : room.RecordError) :
  read_loop reads initial va false acc <> Returns (parsed, Some (ErrRoomParse e)).
Proof.
  revert initial acc. induction reads as [|[record|msg] rest IH]; intros initial acc;
    try discriminate.
  cbn [read_loop]. destruct initial; [apply IH|].
  destruct (room_props.NewRoomFromRecord_shape record va) as [[r Hr] | [e' He]].
  - rewrite Hr. apply IH.
  - rewrite He. discriminate.
Qed.

(** X21: without strict mode a refused record is never reported as an
    error and never skipped: [loadRooms] panics, on the nil room, exactly
    when the source is a header and accepted records followed by a record
    that [NewRoomFromRecord] refuses. *)
Theorem nonstrict_load_panics_iff (fs : FileSystem) (roomData : string) (h : Hotel) :
  (forall h' e, loadRooms fs roomData false h <> Returns (h', Some (ErrRoomParse e)))
  /\ (forall p,
        loadRooms fs roomData false h = Panics p
        <-> p = NilDereference
            /\ exists f header accepted bad rest,
                 fs roomData = Some f
                 /\ csv_reads f
                    = ReadRecord header :: (List.map ReadRecord accepted ++ ReadRecord bad :: rest)%list
                 /\ Forall (well_formed (roomAttrs h)) accepted
                 /\ ~ well_formed (roomAttrs h) bad).
Proof.
  split.
  - intros h' e. unfold loadRooms. destruct (fs roomData) as [f|]; [|discriminate].
    destruct (read_loop _ _ _ _ _) as [[parsed [e'|]]| |] eqn:E; cbn; try discriminate.
    + intros [= _ ->]. exact (read_loop_nonstrict_no_parse_error _ _ _ _ _ _ E).
    + destruct (Sync.Lock (mu h)) as [m1| |]; cbn; try discriminate.
      destruct (Sync.Unlock m1); cbn; discriminate.
  - intros p. split.
    + unfold loadRooms. destruct (fs roomData) as [f|] eqn:Hf; [|discriminate].
      destruct (read_loop _ _ _ _ _) as [[parsed [e'|]]| |] eqn:E; cbn; try discriminate.
      * unfold Sync.Lock. destruct (_ || _); cbn; discriminate.
      * intros [= <-]. destruct (csv_reads f) as [|[header|msg] reads] eqn:Hc;
          try discriminate E.
        rewrite read_loop_header in E.
        destruct (read_loop_nonstrict_panics _ _ _ _ E)
          as (-> & accepted & bad & rest & -> & Hall & Hbad).
        split; [reflexivity|]. exists f, header, accepted, bad, rest. auto.
    + intros (-> & f & header & accepted & bad & rest & Hf & Hc & Hall & Hbad).
      destruct (room_props.NewRoomFromRecord_shape bad (roomAttrs h)) as [[r Hr] | [e He]].
      * destruct Hbad. exists r. rewrite Hr. reflexivity.
      * exact (loadRooms_nonstrict_refused_panics fs roomData f h header accepted bad e rest
                 Hf Hc Hall He).
Qed.

Lemma read_loop_strict_irrelevant (reads : list ReadResult) (initial : bool)
    (va : list room.Attribute) (acc parsed : gmap N room.Room) :
  read_loop reads initial va true acc = Returns (parsed, None)
  <-> read_loop reads initial va false acc = Returns (parsed, None).
Proof.
  revert initial acc. induction reads as [|[record|msg] rest IH]; intros initial acc;
    [reflexivity | | reflexivity].
  cbn [read_loop]. destruct initial; [apply IH|].
  destruct (room_props.NewRoomFromRecord_shape record va) as [[r Hr] | [e He]].
  - rewrite Hr. apply IH.
  - rewrite He. split; discriminate.
Qed.

Lemma read_loop_vocabulary (reads : list ReadResult) (initial strict : bool)
    (va va' : list room.Attribute) (acc : gmap N room.Room) :
  read_loop reads initial va strict acc = read_loop reads initial va' strict acc.
Proof.
  revert initial acc. induction reads as [|[record|msg] rest IH]; intros initial acc;
    [reflexivity | | reflexivity].
  cbn [read_loop]. destruct initial; [apply IH|].
  change (room.NewRoomFromRecord record va') with (room.NewRoomFromRecord record va).
  destruct (room.NewRoomFromRecord record va) as [[r|] [e|]]; destruct strict;
    try reflexivity; apply IH.
Qed.

Lemma loadRooms_ok_strict_irrelevant (fs : FileSystem) (roomData : string) (h h' : Hotel) :
  loadRooms fs roomData true h = Returns (h', None)
  <-> loadRooms fs roomData false h = Returns (h', None).
Proof.
  unfold loadRooms. destruct (fs roomData) as [f|]; [|reflexivity].
  match goal with
  | |- context [read_loop ?a ?b ?c true ?d] =>
      pose proof (read_loop_strict_irrelevant a b c d) as Hiff;
      destruct (read_loop a b c true d) as [[p1 [e1|]]| |];
      destruct (read_loop a b c false d) as [[p2 [e2|]]| |]
  end; cbn;
    try (split; discriminate);
    try (exfalso;
         first [ destruct (Hiff p1) as [Hx _]; specialize (Hx eq_refl); discriminate Hx
               | destruct (Hiff p2) as [_ Hx]; specialize (Hx eq_refl); discriminate Hx ];
         fail).
  destruct (Hiff p1) as [Hx _]. specialize (Hx eq_refl). injection Hx as ->. reflexivity.
Qed.

(** X22: the strict flag plays no part in a load that succeeds:
    [loadRooms] and [NewHotelFromData] return a registry without error in
    strict mode exactly when they do so without it, and it is the same
    registry. *)
Theorem strict_irrelevant_on_success
    (fs : FileSystem) (attrData roomData : string) (h h' : Hotel) :
  (loadRooms fs roomData true h = Returns (h', None)
   <-> loadRooms fs roomData false h = Returns (h', None))
  /\ (NewHotelFromData fs attrData roomData true = Returns (Some h', None)
      <-> NewHotelFromData fs attrData roomData false = Returns (Some h', None)).
Proof.
  split; [apply loadRooms_ok_strict_irrelevant|].
  unfold NewHotelFromData.
  destruct (loadAttributes fs attrData emptyHotel) as [[h1 [e|]]| |]; cbn; try reflexivity.
  pose proof (loadRooms_ok_strict_irrelevant fs roomData h1) as Hiff.
  destruct (loadRooms fs roomData true h1) as [[h2 [e2|]]| |];
    destruct (loadRooms fs roomData false h1) as [[h3 [e3|]]| |]; cbn;
    try (split; discriminate);
    try (exfalso;
         first [ destruct (Hiff h2) as [Hx _]; specialize (Hx eq_refl); discriminate Hx
               | destruct (Hiff h3) as [_ Hx]; specialize (Hx eq_refl); discriminate Hx ];
         fail).
  destruct (Hiff h2) as [Hx _]. specialize (Hx eq_refl). injection Hx as ->. reflexivity.
Qed.

(** X23: a room source that is empty, or holds a header and nothing else,
    loads without error and leaves the registry as it was; the header is not
    parsed, so it may be anything. *)
Theorem loadRooms_without_records
    (fs : FileSystem) (roomData : string) (strict : bool) (f : File) (h : Hotel) :
  fs roomData = Some f -> Sync.unlocked (mu h) ->
  csv_reads f = [] \/ (exists header, csv_reads f = [ReadRecord header]) ->
  loadRooms fs roomData strict h = Returns (h, None).
Proof.
  intros Hf Hu Hc. rewrite (loadRooms_spec fs roomData strict f h Hf Hu).
  destruct Hc as [-> | [header ->]]; cbn [read_loop mret outcome_ret];
    rewrite (left_id_L ∅ (∪)), hotel_eta; reflexivity.
Qed.

Lemma loadRooms_without_records_witness :
  loadRooms fs_attrs_sample "attrs.txt" true emptyHotel = Returns (emptyHotel, None).
Proof.
  apply (loadRooms_without_records fs_attrs_sample "attrs.txt" true
           (mkFile None ["# comment"; ""; "view  ocean"] []) emptyHotel).
  - reflexivity.
  - split; reflexivity.
  - left. reflexivity.
Defined.

(** X24: loading the same room source a second time changes nothing: a
    load that has succeeded succeeds again on the registry it produced, and
    returns that registry. *)
Theorem loadRooms_again_changes_nothing
    (fs : FileSystem) (roomData : string) (strict : bool) (h h1 : Hotel) :
  loadRooms fs roomData strict h = Returns (h1, None) ->
  loadRooms fs roomData strict h1 = Returns (h1, None).
Proof.
  intros H.
  destruct (loadRooms_full_inv fs roomData strict h h1 H) as (f & parsed & Hf & Hl & Hu & ->).
  rewrite (loadRooms_spec fs roomData strict f _ Hf) by exact Hu.
  cbn [roomAttrs mu numRooms rooms]. rewrite Hl.
  rewrite (assoc_L (∪)), (idemp_L (∪)). reflexivity.
Qed.

Lemma loadRooms_again_changes_nothing_witness :
  loadRooms fs_duplicates "rooms.csv" false
    (mkHotel Sync.new 0 (insert_records [] duplicate_records ∅ ∪ ∅) [])
  = Returns (mkHotel Sync.new 0 (insert_records [] duplicate_records ∅ ∪ ∅) [], None).
Proof.
  apply (loadRooms_again_changes_nothing fs_duplicates "rooms.csv" false emptyHotel).
  apply (loadRooms_well_formed fs_duplicates "rooms.csv" false
           (mkFile None [] (ReadRecord ["id"; "price"; "state"; "attributes"]
                         :: List.map ReadRecord duplicate_records))
           emptyHotel ["id"; "price"; "state"; "attributes"] duplicate_records
           eq_refl eq_refl duplicate_records_well_formed (conj eq_refl eq_refl)).
Defined.

(** X25: [loadRooms] removes no room and touches nothing but the room
    mapping: after a load that succeeds every room number that had an entry
    still has one, and the vocabulary, the mutex and the stored room count
    are as before (the count is set by [NewHotelFromData] only). *)
Theorem loadRooms_removes_nothing
    (fs : FileSystem) (roomData : string) (strict : bool) (h h' : Hotel) :
  loadRooms fs roomData strict h = Returns (h', None) ->
  (forall i, is_Some (rooms h !! i) -> is_Some (rooms h' !! i))
  /\ (size (rooms h) <= size (rooms h'))%nat
  /\ roomAttrs h' = roomAttrs h /\ mu h' = mu h /\ numRooms h' = numRooms h.
Proof.
  intros H.
  destruct (loadRooms_full_inv fs roomData strict h h' H) as (f & parsed & _ & _ & _ & ->).
  cbn. split; [|split; [|auto]].
  - intros i Hi. apply lookup_union_is_Some. right. exact Hi.
  - rewrite <- !(size_dom (D:=gset N)). apply subseteq_size.
    rewrite dom_union_L. apply union_subseteq_r.
Qed.

Lemma loadRooms_removes_nothing_witness :
  (forall i, is_Some (rooms emptyHotel !! i) ->
     is_Some (rooms (mkHotel Sync.new 0 (insert_records [] duplicate_records ∅ ∪ ∅) []) !! i))
  /\ (size (rooms emptyHotel)
      <= size (rooms (mkHotel Sync.new 0 (insert_records [] duplicate_records ∅ ∪ ∅) [])))%nat
  /\ roomAttrs (mkHotel Sync.new 0 (insert_records [] duplicate_records ∅ ∪ ∅) [])
     = roomAttrs emptyHotel
  /\ mu (mkHotel Sync.new 0 (insert_records [] duplicate_records ∅ ∪ ∅) []) = mu emptyHotel
  /\ numRooms (mkHotel Sync.new 0 (insert_records [] duplicate_records ∅ ∪ ∅) [])
     = numRooms emptyHotel.
Proof.
  apply (loadRooms_removes_nothing fs_duplicates "rooms.csv" false emptyHotel).
  apply (loadRooms_well_formed fs_duplicates "rooms.csv" false
           (mkFile None [] (ReadRecord ["id"; "price"; "state"; "attributes"]
                         :: List.map ReadRecord duplicate_records))
           emptyHotel ["id"; "price"; "state"; "attributes"] duplicate_records
           eq_refl eq_refl duplicate_records_well_formed (conj eq_refl eq_refl)).
Defined.

(** *** The registry that [NewHotelFromData] returns *)

Lemma read_loop_entries (reads : list ReadResult) (initial strict : bool)
    (va : list room.Attribute) (acc parsed : gmap N room.Room) :
  read_loop reads initial va strict acc = Returns (parsed, None) ->
  forall i r, parsed !! i = Some r ->
    acc !! i = Some r
    \/ exists record, ReadRecord record ∈ reads
         /\ fst (room.NewRoomFromRecord record va) = Some r /\ room.ID r = i.
Proof.
  revert initial acc. induction reads as [|[record|msg] rest IH]; intros initial acc.
  - cbn. intros [= <-] i r Hi. left. exact Hi.
  - cbn [read_loop]. destruct initial.
    + intros H i r Hi. destruct (IH _ _ H i r Hi) as [Ha | (rec & Hin & Hrec)]; [left; exact Ha|].
      right. exists rec. split; [right; exact Hin | exact Hrec].
    + destruct (room_props.NewRoomFromRecord_shape record va) as [[r0 Hr0] | [e He]].
      * rewrite Hr0. intros H i r Hi.
        assert (H' : read_loop rest false va strict (<[room.ID r0 := r0]> acc)
                     = Returns (parsed, None)) by (destruct strict; exact H).
        destruct (IH _ _ H' i r Hi) as [Ha | (rec & Hin & Hrec)].
        -- destruct (decide (room.ID r0 = i)) as [<- | Hne].
           ++ rewrite lookup_insert_eq in Ha. injection Ha as <-.
              right. exists record. split; [left|]. rewrite Hr0. auto.
           ++ rewrite lookup_insert_ne in Ha by exact Hne. left. exact Ha.
        -- right. exists rec. split; [right; exact Hin | exact Hrec].
      * rewrite He. destruct strict; discriminate.
  - discriminate.
Qed.

Lemma NewHotelFromData_ok_inv (fs : FileSystem) (attrData roomData : string)
    (strict : bool) (h : Hotel) :
  NewHotelFromData fs attrData roomData strict = Returns (Some h, None) ->
  exists fa f parsed,
    fs attrData = Some fa /\ fs roomData = Some f
    /\ read_loop (csv_reads f) true
         (List.filter kept (List.map first_piece (scan_lines fa))) strict ∅
       = Returns (parsed, None)
    /\ h = mkHotel Sync.new (to_uint (N.of_nat (size (parsed ∪ (∅ : gmap N room.Room)))))
             (parsed ∪ ∅) (List.filter kept (List.map first_piece (scan_lines fa))).
Proof.
  intros H. destruct (fs attrData) as [fa|] eqn:Hfa.
  - destruct (NewHotelFromData_attrs_loaded fs attrData roomData strict fa Hfa)
      as (h1 & Hva & Hrooms & Hmu & _ & Heq).
    rewrite Heq in H.
    destruct (loadRooms fs roomData strict h1) as [[h2 [e|]]| |] eqn:E; try discriminate H.
    destruct (loadRooms_full_inv fs roomData strict h1 h2 E) as (f & parsed & Hf & Hl & _ & ->).
    cbn in H. injection H as <-. rewrite Hva in Hl. rewrite Hva, Hrooms, Hmu.
    exists fa, f, parsed. auto.
  - unfold NewHotelFromData in H. rewrite (loadAttributes_open_fails fs attrData _ Hfa) in H.
    discriminate H.
Qed.

(** X26: in a registry returned by [NewHotelFromData] every room sits
    under its own number and comes from a record of the room source; its
    number is below 2^64, its state is OCCUPIED, UNAVAILABLE or FREE, its
    attribute set is not empty and its mutex is free.  The stored room count
    is the size of the mapping, and the registry's mutex is free. *)
Theorem NewHotelFromData_registry (fs : FileSystem) (attrData roomData : string)
    (strict : bool) (h : Hotel) :
  NewHotelFromData fs attrData roomData strict = Returns (Some h, None) ->
  (forall i r, rooms h !! i = Some r ->
     room.ID r = i /\ i < 2 ^ 64
     /\ room.valid_state (room.state r) /\ room.attrs r <> ∅ /\ room.mu r = Sync.new
     /\ exists f record, fs roomData = Some f /\ ReadRecord record ∈ csv_reads f
          /\ fst (room.NewRoomFromRecord record (roomAttrs h)) = Some r)
  /\ numRooms h = to_uint (N.of_nat (size (rooms h)))
  /\ Sync.unlocked (mu h).
Proof.
  intros H.
  destruct (NewHotelFromData_ok_inv fs attrData roomData strict h H)
    as (fa & f & parsed & _ & Hf & Hl & ->).
  cbn [rooms numRooms mu roomAttrs]. split; [|split; [reflexivity | split; reflexivity]].
  intros i r Hi. rewrite (right_id_L ∅ (∪)) in Hi.
  destruct (read_loop_entries _ _ _ _ _ _ Hl i r Hi) as [Ha | (record & Hin & Hrec & Hid)].
  { rewrite lookup_empty in Ha. discriminate Ha. }
  destruct (room_props.NewRoomFromRecord_Some _ _ _ Hrec)
    as (eID & ePrice & eState & eAttrs & id64 & price64 & st & _ & _ & _ & Hst & Hr & _).
  split; [exact Hid|]. split.
  { rewrite <- Hid, Hr. cbn. unfold to_uint, uint_size. apply N.mod_lt. discriminate. }
  rewrite Hr at 1 2 3. cbn [room.state room.attrs room.mu].
  split; [exact (proj2 (room_props.state_of_entry_Some _ _ Hst))|].
  split; [apply room_more.attrs_of_entry_not_empty|]. split; [reflexivity|].
  exists f, record. auto.
Qed.

Lemma NewHotelFromData_registry_witness :
  numRooms sample_hotel = to_uint (N.of_nat (size (rooms sample_hotel)))
  /\ Sync.unlocked (mu sample_hotel).
Proof.
  refine (proj2 (NewHotelFromData_registry fs_complete "attrs.txt" "rooms.csv" false
                   sample_hotel _)).
  vm_compute. reflexivity.
Defined.

Lemma loadRooms_vocabulary (fs : FileSystem) (roomData : string) (strict : bool)
    (h h' : Hotel) :
  mu h = mu h' -> rooms h = rooms h' ->
  match loadRooms fs roomData strict h, loadRooms fs roomData strict h' with
  | Returns (h2, None), Returns (h2', None) => rooms h2 = rooms h2'
  | Returns (_, Some e), Returns (_, Some e') => e = e'
  | Panics p, Panics p' => p = p'
  | Blocks, Blocks => True
  | _, _ => False
  end.
Proof.
  intros Hmu Hrooms. unfold loadRooms. destruct (fs roomData) as [f|]; [|reflexivity].
  rewrite (read_loop_vocabulary _ _ _ (roomAttrs h) (roomAttrs h')).
  destruct (read_loop _ _ (roomAttrs h') _ _) as [[parsed [e|]]| |]; cbn; try reflexivity.
  rewrite Hmu, Hrooms. destruct (Sync.Lock (mu h')) as [m1| |]; cbn; try reflexivity.
  destruct (Sync.Unlock m1); cbn; reflexivity.
Qed.

(** X27: the attribute source has no say in the rooms: with any two
    attribute files that open, [NewHotelFromData] ends alike on a given room
    source, with the same room mapping or the same error or the same
    panic. *)
Theorem rooms_independent_of_attributes
    (fs : FileSystem) (attrData attrData' roomData : string) (strict : bool) :
  is_Some (fs attrData) -> is_Some (fs attrData') ->
  loaded_rooms (NewHotelFromData fs attrData roomData strict)
  = loaded_rooms (NewHotelFromData fs attrData' roomData strict).
Proof.
  intros [fa Hfa] [fa' Hfa'].
  destruct (NewHotelFromData_attrs_loaded fs attrData roomData strict fa Hfa)
    as (h1 & _ & Hrooms & Hmu & _ & ->).
  destruct (NewHotelFromData_attrs_loaded fs attrData' roomData strict fa' Hfa')
    as (h1' & _ & Hrooms' & Hmu' & _ & ->).
  pose proof (loadRooms_vocabulary fs roomData strict h1 h1') as Hv.
  rewrite Hmu, Hmu', Hrooms, Hrooms' in Hv. specialize (Hv eq_refl eq_refl).
  destruct (loadRooms fs roomData strict h1) as [[h2 [e|]]| |];
    destruct (loadRooms fs roomData strict h1') as [[h2' [e'|]]| |];
    cbn in Hv |- *; try contradiction; subst; try reflexivity.
  rewrite Hv. reflexivity.
Qed.

Lemma rooms_independent_of_attributes_witness :
  loaded_rooms (NewHotelFromData fs_complete "attrs.txt" "rooms.csv" true)
  = loaded_rooms (NewHotelFromData fs_complete "other.txt" "rooms.csv" true).
Proof.
  apply (rooms_independent_of_attributes fs_complete "attrs.txt" "other.txt" "rooms.csv" true);
    eexists; reflexivity.
Defined.

End hotel_more.
